(** * DEEPFAKE-GUARDIAN: the scan overlay's poller and the Express endpoints

    A shallow embedding of the two source files of the repository:

    - the React component [LegalOptions] / [ScanOverlay] (client): the helper
      [normalizeUrl], the merge of polled results into [resultsMap], the
      derived progress percentage and per-site status;
    - [server/server.js]: the handlers of [/api/v1/analyze],
      [/api/v1/global-scan], [/api/v1/websites] and [/api/v1/scan-results].

    JavaScript values are embedded as the inductive type [value]; numbers are
    IEEE-754 binary64, i.e. Rocq's primitive [float]; strings are sequences of
    UTF-16 code units; a thrown exception is the left summand of [result]. *)

From Stdlib Require Import PrimFloat FloatOps SpecFloat FloatAxioms.
From Stdlib Require Import Ascii String.
From stdpp Require Import gmap list pretty.

Set Default Proof Using "Type".
Set Warnings "-register-all".

(** ** Strings *)

(** A JavaScript string is a sequence of 16-bit code units.  Code units are
    kept as [N]; nothing below depends on them being below 65536. *)
Abbreviation jsstring := (list N).

(** The code unit of the double quote. *)
Definition quote : N := 34%N.

(** The code units of an ASCII literal of the source. *)
Definition js (s : string) : jsstring :=
  (λ a, N_of_ascii a) <$> list_ascii_of_string s.

(** A JSON string literal: the text between double quotes. *)
Definition quoted (s : string) : jsstring := quote :: js s ++ [quote].

Definition chr (a : ascii) : N := N_of_ascii a.

(** [s.startsWith(p)], with the rest of [s] after [p]. *)
Fixpoint strip_prefix (p s : jsstring) : option jsstring :=
  match p with
  | [] => Some s
  | a :: p' =>
      match s with
      | [] => None
      | b :: s' => if (a =? b)%N then strip_prefix p' s' else None
      end
  end.

Definition starts_with (p s : jsstring) : bool :=
  match strip_prefix p s with Some _ => true | None => false end.

(** [s.includes(p)]: [p] occurs at some position of [s]. *)
Fixpoint includes (p s : jsstring) : bool :=
  starts_with p s ||
  match s with
  | [] => false
  | _ :: s' => includes p s'
  end.

(** WhiteSpace and LineTerminator code units of ECMAScript: what
    [String.prototype.trim] and [parseFloat] skip. *)
Definition is_line_terminator (c : N) : bool :=
  ((c =? 10) || (c =? 13) || (c =? 8232) || (c =? 8233))%N.

Definition is_whitespace (c : N) : bool :=
  (is_line_terminator c
   || (c =? 9) || (c =? 11) || (c =? 12) || (c =? 32) || (c =? 160)
   || (c =? 5760) || ((8192 <=? c) && (c <=? 8202)) || (c =? 8239)
   || (c =? 8287) || (c =? 12288) || (c =? 65279))%N.

Fixpoint drop_while (f : N → bool) (s : jsstring) : jsstring :=
  match s with
  | [] => []
  | c :: s' => if f c then drop_while f s' else s
  end.

Fixpoint take_while (f : N → bool) (s : jsstring) : jsstring :=
  match s with
  | [] => []
  | c :: s' => if f c then c :: take_while f s' else []
  end.

Definition trimStart (s : jsstring) : jsstring := drop_while is_whitespace s.
Definition trimEnd (s : jsstring) : jsstring := rev (drop_while is_whitespace (rev s)).
Definition trim (s : jsstring) : jsstring := trimEnd (trimStart s).

(** ** Values and exceptions *)

Inductive value :=
| VUndefined
| VNull
| VBool (b : bool)
| VNumber (x : float)
| VString (s : jsstring)
| VArray (elems : list value)
| VObject (props : list (jsstring * value)).

Inductive exn :=
| TypeError (msg : string)
| SyntaxError (msg : string)
| IOError (msg : string).

(** A computation that returns or throws. *)
Definition result (A : Type) : Type := exn + A.

Definition ret {A} (a : A) : result A := inr a.
Definition throw {A} (e : exn) : result A := inl e.
Definition bind {A B} (m : result A) (k : A → result B) : result B :=
  match m with
  | inl e => inl e
  | inr a => k a
  end.

Notation "'do' x <- m ; k" := (bind m (λ x, k))
  (at level 10, x name, m at level 100, k at level 200).

(** ToBoolean. *)
Definition truthy (v : value) : bool :=
  match v with
  | VUndefined | VNull => false
  | VBool b => b
  | VNumber x => negb (is_zero x || is_nan x)
  | VString s => match s with [] => false | _ => true end
  | VArray _ | VObject _ => true
  end.

(** The own properties of an object, in insertion order; keys are unique in
    the property list of a JavaScript object, so the first binding is the
    binding. *)
Fixpoint own_property (props : list (jsstring * value)) (name : jsstring) : value :=
  match props with
  | [] => VUndefined
  | (k, v) :: rest => if decide (k = name) then v else own_property rest name
  end.

(** [v.name] for the property names this program reads ([success],
    [all_results], [summary], [total_scanned], [deepfakes_found],
    [source_url], [prediction]): none of them is inherited from a prototype,
    so only an object can carry them; [null] and [undefined] throw. *)
Definition get (v : value) (name : string) : result value :=
  match v with
  | VUndefined | VNull => throw (TypeError "Cannot read properties of null or undefined")
  | VObject props => ret (own_property props (js name))
  | _ => ret VUndefined
  end.

(** [v?.name]. *)
Definition get_opt (v : value) (name : string) : value :=
  match v with
  | VObject props => own_property props (js name)
  | _ => VUndefined
  end.

(** [v === 'lit']. *)
Definition is_string (v : value) (lit : string) : bool :=
  match v with
  | VString s => bool_decide (s = js lit)
  | _ => false
  end.

(** [a || b] on values. *)
Definition or_else (a b : value) : value := if truthy a then a else b.

(** *** What JSON carries

    A value sent as JSON arrives as [JSON.parse(JSON.stringify(v))]:
    [JSON.stringify] writes [NaN] and the infinities as [null] and [-0] as
    [0], omits the properties of an object whose value is [undefined] and
    writes [null] for such an element of an array; every other number,
    string and boolean reads back as it was. *)
Definition sent_number (x : float) : value :=
  if is_nan x || is_infinity x then VNull
  else if is_zero x then VNumber 0
  else VNumber x.

Fixpoint as_json (v : value) : value :=
  match v with
  | VNumber x => sent_number x
  | VArray elems =>
      VArray ((fix elements (l : list value) : list value :=
                 match l with
                 | [] => []
                 | x :: l' =>
                     match x with
                     | VUndefined => VNull
                     | _ => as_json x
                     end :: elements l'
                 end) elems)
  | VObject props =>
      VObject ((fix properties (ps : list (jsstring * value)) : list (jsstring * value) :=
                  match ps with
                  | [] => []
                  | (k, x) :: ps' =>
                      match x with
                      | VUndefined => properties ps'
                      | _ => (k, as_json x) :: properties ps'
                      end
                  end) props)
  | _ => v
  end.

(** The elements of an array and the properties of an object, as sent. *)
Definition sent_element (x : value) : value :=
  match x with
  | VUndefined => VNull
  | _ => as_json x
  end.

Fixpoint sent_properties (ps : list (jsstring * value)) : list (jsstring * value) :=
  match ps with
  | [] => []
  | (k, x) :: ps' =>
      match x with
      | VUndefined => sent_properties ps'
      | _ => (k, as_json x) :: sent_properties ps'
      end
  end.

(** ** Numbers

    [parseFloat] and ToNumber read a decimal literal and round its exact value
    once, to the nearest binary64 (ties to even): a mantissa [m] and a decimal
    exponent [e] stand for [m * 10^e]; the rounding is the one of Stdlib's
    specification of IEEE-754 ([binary_round], and [SFdiv] for a negative
    exponent). *)

Definition is_digit (c : N) : bool := ((48 <=? c) && (c <=? 57))%N.

(** The value of a digit in a radix up to 16, if it is one. *)
Definition digit_value (radix c : N) : option N :=
  let d := (if (48 <=? c) && (c <=? 57) then Some (c - 48)
            else if (97 <=? c) && (c <=? 102) then Some (c - 87)
            else if (65 <=? c) && (c <=? 70) then Some (c - 55)
            else None)%N in
  match d with
  | Some n => if (n <? radix)%N then Some n else None
  | None => None
  end.

Fixpoint radix_value (radix acc : N) (ds : jsstring) : option N :=
  match ds with
  | [] => Some acc
  | c :: ds' =>
      match digit_value radix c with
      | Some d => radix_value radix (acc * radix + d)%N ds'
      | None => None
      end
  end.

Definition digits_value (ds : jsstring) : N :=
  default 0%N (radix_value 10 0 ds).

Definition float_of_Z (z : Z) : float :=
  SF2Prim (binary_normalize prec emax z 0 false).

Definition float_of_decimal (neg : bool) (m : N) (e : Z) : float :=
  SF2Prim
    match m with
    | N0 => S754_zero neg
    | Npos p =>
        if (0 <=? e)%Z
        then binary_round prec emax neg (p * Z.to_pos (10 ^ e))%positive 0
        else SFdiv prec emax (S754_finite neg p 0)
                            (S754_finite false (Z.to_pos (10 ^ (- e))) 0)
    end.

Definition scan_sign (s : jsstring) : bool * jsstring :=
  match s with
  | c :: t =>
      if (c =? chr "-")%N then (true, t)
      else if (c =? chr "+")%N then (false, t)
      else (false, s)
  | [] => (false, [])
  end.

(** ExponentPart, when it is complete; otherwise nothing is consumed. *)
Definition scan_exponent (s : jsstring) : Z * jsstring :=
  match s with
  | c :: t =>
      if ((c =? chr "e") || (c =? chr "E"))%N then
        let '(neg, t') := scan_sign t in
        match take_while is_digit t' with
        | [] => (0%Z, s)
        | ds => (let n := Z.of_N (digits_value ds) in if neg then - n else n,
                 drop_while is_digit t')%Z
        end
      else (0%Z, s)
  | [] => (0%Z, [])
  end.

(** The longest prefix that is an unsigned decimal literal
    ([digits], [digits.], [digits.digits], [.digits], each with an optional
    exponent): its mantissa, its decimal exponent and the rest of the
    input. *)
Definition scan_decimal (s : jsstring) : option (N * Z * jsstring) :=
  let int := take_while is_digit s in
  let s1 := drop_while is_digit s in
  let '(frac, s2) :=
    match s1 with
    | c :: t =>
        if (c =? chr ".")%N then (take_while is_digit t, drop_while is_digit t)
        else ([], s1)
    | [] => ([], [])
    end in
  match int ++ frac with
  | [] => None
  | ds =>
      let '(e, s3) := scan_exponent s2 in
      Some (digits_value ds, (e - Z.of_nat (length frac))%Z, s3)
  end.

(** [parseFloat(s)]. *)
Definition parseFloat (s : jsstring) : float :=
  let '(neg, u) := scan_sign (trimStart s) in
  if starts_with (js "Infinity") u then (if neg then neg_infinity else infinity)
  else match scan_decimal u with
       | Some (m, e, _) => float_of_decimal neg m e
       | None => nan
       end.

(** StringToNumber: the whole trimmed string has to be a numeric literal. *)
Definition radix_literal (radix : N) (ds : jsstring) : float :=
  match ds with
  | [] => nan
  | _ => match radix_value radix 0 ds with
         | Some n => float_of_Z (Z.of_N n)
         | None => nan
         end
  end.

Definition StringToNumber (s : jsstring) : float :=
  match trim s with
  | [] => PrimFloat.zero
  | t =>
      match t with
      | 48%N :: c :: ds =>
          if ((c =? chr "x") || (c =? chr "X"))%N then radix_literal 16 ds
          else if ((c =? chr "o") || (c =? chr "O"))%N then radix_literal 8 ds
          else if ((c =? chr "b") || (c =? chr "B"))%N then radix_literal 2 ds
          else match scan_decimal t with
               | Some (m, e, []) => float_of_decimal false m e
               | _ => nan
               end
      | _ =>
          let '(neg, u) := scan_sign t in
          if bool_decide (u = js "Infinity")
          then (if neg then neg_infinity else infinity)
          else match scan_decimal u with
               | Some (m, e, []) => float_of_decimal neg m e
               | _ => nan
               end
      end
  end.

(** ToNumber.  An array is first converted to a string: the empty array to
    the empty string, a one-element array to the string of its element (which
    reads back as the element's number, except that [-0] prints as [0], and
    [true]/[false] and objects print as text that is no numeric literal), a
    longer one to a text with commas. *)
Fixpoint ToNumber (v : value) : float :=
  match v with
  | VUndefined => nan
  | VNull => PrimFloat.zero
  | VBool b => if b then PrimFloat.one else PrimFloat.zero
  | VNumber x => x
  | VString s => StringToNumber s
  | VArray [] => PrimFloat.zero
  | VArray [x] =>
      match x with
      | VUndefined | VNull => PrimFloat.zero
      | VBool _ | VObject _ => nan
      | VNumber y => if is_zero y then PrimFloat.zero else y
      | VString _ | VArray _ => ToNumber x
      end
  | VArray _ => nan
  | VObject _ => nan
  end.

(** Assignment of a property: an existing key keeps its place. *)
Fixpoint set_property (k : jsstring) (v : value) (props : list (jsstring * value))
  : list (jsstring * value) :=
  match props with
  | [] => [(k, v)]
  | (k', v') :: rest =>
      if decide (k' = k) then (k, v) :: rest else (k', v') :: set_property k v rest
  end.

(** ** JSON.parse

    A recursive-descent reader of the JSON grammar (RFC 8259, as
    [JSON.parse] applies it): [None] is a syntax error.  Every call consumes
    fuel, and at most two calls are made per character read, so
    [2 * length s + 2] is enough for a document [s]. *)

Definition is_json_space (c : N) : bool :=
  ((c =? 32) || (c =? 9) || (c =? 10) || (c =? 13))%N.

Definition skip_space (s : jsstring) : jsstring := drop_while is_json_space s.

(** Four hexadecimal digits of a [\u] escape. *)
Definition scan_hex4 (s : jsstring) : option (N * jsstring) :=
  match s with
  | a :: b :: c :: d :: rest =>
      match radix_value 16 0 [a; b; c; d] with
      | Some n => Some (n, rest)
      | None => None
      end
  | _ => None
  end.

Definition escape (c : N) : option N :=
  (if (c =? quote) || (c =? chr "\") || (c =? chr "/") then Some c
   else if c =? chr "b" then Some 8
   else if c =? chr "f" then Some 12
   else if c =? chr "n" then Some 10
   else if c =? chr "r" then Some 13
   else if c =? chr "t" then Some 9
   else None)%N.

(** The characters of a string literal after its opening quote. *)
Fixpoint scan_string (fuel : nat) (s acc : jsstring) : option (jsstring * jsstring) :=
  match fuel with
  | O => None
  | S fuel' =>
      match s with
      | [] => None
      | c :: t =>
          if (c =? quote)%N then Some (rev acc, t)
          else if (c <? 32)%N then None
          else if (c =? chr "\")%N then
            match t with
            | [] => None
            | e :: t' =>
                if (e =? chr "u")%N then
                  match scan_hex4 t' with
                  | Some (n, t'') => scan_string fuel' t'' (n :: acc)
                  | None => None
                  end
                else match escape e with
                     | Some x => scan_string fuel' t' (x :: acc)
                     | None => None
                     end
            end
          else scan_string fuel' t (c :: acc)
      end
  end.

(** A JSON number: no leading zeros, digits on both sides of the point, a
    complete exponent. *)
Definition scan_number (s : jsstring) : option (float * jsstring) :=
  let '(neg, s0) :=
    match s with
    | c :: t => if (c =? chr "-")%N then (true, t) else (false, s)
    | [] => (false, [])
    end in
  let int := take_while is_digit s0 in
  let s1 := drop_while is_digit s0 in
  match int with
  | [] => None
  | d :: ds =>
      if (d =? 48)%N && bool_decide (ds ≠ []) then None
      else
        let frac_part :=
          match s1 with
          | c :: t =>
              if (c =? chr ".")%N then
                match take_while is_digit t with
                | [] => None
                | frac => Some (frac, drop_while is_digit t)
                end
              else Some ([], s1)
          | [] => Some ([], [])
          end in
        match frac_part with
        | None => None
        | Some (frac, s2) =>
            let exp_part :=
              match s2 with
              | c :: t =>
                  if ((c =? chr "e") || (c =? chr "E"))%N then
                    let '(eneg, t') := scan_sign t in
                    match take_while is_digit t' with
                    | [] => None
                    | eds => Some ((let n := Z.of_N (digits_value eds) in
                                    if eneg then - n else n)%Z,
                                   drop_while is_digit t')
                    end
                  else Some (0%Z, s2)
              | [] => Some (0%Z, [])
              end in
            match exp_part with
            | None => None
            | Some (e, s3) =>
                Some (float_of_decimal neg (digits_value (int ++ frac))
                                       (e - Z.of_nat (length frac))%Z, s3)
            end
        end
  end.

Fixpoint parse_value (fuel : nat) (s : jsstring) : option (value * jsstring) :=
  match fuel with
  | O => None
  | S fuel' =>
      match skip_space s with
      | [] => None
      | c :: t =>
          if (c =? chr "{")%N then
            match skip_space t with
            | c' :: t' =>
                if (c' =? chr "}")%N then Some (VObject [], t')
                else parse_members fuel' t []
            | [] => None
            end
          else if (c =? chr "[")%N then
            match skip_space t with
            | c' :: t' =>
                if (c' =? chr "]")%N then Some (VArray [], t')
                else parse_elements fuel' t []
            | [] => None
            end
          else if (c =? quote)%N then
            match scan_string (S (length t)) t [] with
            | Some (str, rest) => Some (VString str, rest)
            | None => None
            end
          else if (c =? chr "-")%N || is_digit c then
            match scan_number (c :: t) with
            | Some (x, rest) => Some (VNumber x, rest)
            | None => None
            end
          else
            match strip_prefix (js "true") (c :: t) with
            | Some rest => Some (VBool true, rest)
            | None =>
                match strip_prefix (js "false") (c :: t) with
                | Some rest => Some (VBool false, rest)
                | None =>
                    match strip_prefix (js "null") (c :: t) with
                    | Some rest => Some (VNull, rest)
                    | None => None
                    end
                end
            end
      end
  end
with parse_elements (fuel : nat) (s : jsstring) (acc : list value)
  : option (value * jsstring) :=
  match fuel with
  | O => None
  | S fuel' =>
      match parse_value fuel' s with
      | None => None
      | Some (v, rest) =>
          match skip_space rest with
          | c :: t =>
              if (c =? chr ",")%N then parse_elements fuel' t (v :: acc)
              else if (c =? chr "]")%N then Some (VArray (rev (v :: acc)), t)
              else None
          | [] => None
          end
      end
  end
with parse_members (fuel : nat) (s : jsstring) (acc : list (jsstring * value))
  : option (value * jsstring) :=
  match fuel with
  | O => None
  | S fuel' =>
      match skip_space s with
      | q :: t =>
          if (q =? quote)%N then
            match scan_string (S (length t)) t [] with
            | None => None
            | Some (k, rest) =>
                match skip_space rest with
                | colon :: rest' =>
                    if (colon =? chr ":")%N then
                      match parse_value fuel' rest' with
                      | None => None
                      | Some (v, rest'') =>
                          match skip_space rest'' with
                          | c :: t' =>
                              if (c =? chr ",")%N
                              then parse_members fuel' t' (set_property k v acc)
                              else if (c =? chr "}")%N
                              then Some (VObject (set_property k v acc), t')
                              else None
                          | [] => None
                          end
                      end
                    else None
                | [] => None
                end
            end
          else None
      | [] => None
      end
  end.

Definition JSON_parse (text : jsstring) : result value :=
  match parse_value (2 * length text + 2) text with
  | Some (v, rest) =>
      match skip_space rest with
      | [] => ret v
      | _ => throw (SyntaxError "Unexpected non-whitespace character after JSON")
      end
  | None => throw (SyntaxError "Unexpected token or end of JSON input")
  end.

(** ** Client: the scan overlay *)

Module Client.

(** [url.replace(/\/$/, '')]: without the [m] flag, [$] is the end of the
    input, so the only possible match is a final slash. *)
Definition ends_with_slash (s : jsstring) : bool :=
  match last s with
  | Some c => (c =? chr "/")%N
  | None => false
  end.

Definition strip_trailing_slash (s : jsstring) : jsstring :=
  if ends_with_slash s then removelast s else s.

(** [(www\.)?]: greedy, so a leading [www.] is taken when it is there. *)
Definition strip_www (s : jsstring) : jsstring :=
  match strip_prefix (js "www.") s with
  | Some rest => rest
  | None => s
  end.

(** [s.replace(/^https?:\/\/(www\.)?/, '')]: the pattern is anchored at the
    start, so it matches at most once, as [https://] or [http://] followed by
    the optional [www.]; a string with no scheme is returned as it is. *)
Definition strip_scheme (s : jsstring) : jsstring :=
  match strip_prefix (js "https://") s with
  | Some rest => strip_www rest
  | None =>
      match strip_prefix (js "http://") s with
      | Some rest => strip_www rest
      | None => s
      end
  end.

(** [normalizeUrl]: a falsy argument gives the empty string; any other value
    that is not a string has no [replace] method. *)
Definition normalizeUrl (url : value) : result jsstring :=
  if negb (truthy url) then ret []
  else match url with
       | VString s => ret (strip_scheme (strip_trailing_slash s))
       | _ => throw (TypeError "url.replace is not a function")
       end.

(** [array.forEach(f)] for a callback that updates an accumulator and may
    throw: the first exception ends the loop. *)
Fixpoint forEach {A S} (f : S → A → result S) (l : list A) (acc : S) : result S :=
  match l with
  | [] => ret acc
  | a :: l' => do acc' <- f acc a; forEach f l' acc'
  end.

(** The body of the [forEach] callback of the poll: [resultsMap] is written
    when it has no truthy entry under the key, or when the record's prediction
    is ['Fake'].  ([r.prediction] cannot throw where it is read: [r.source_url]
    has been read before.)  [resultsMap] is a fresh object literal used as a
    dictionary: a [gmap] from keys to records; keys that name members of
    [Object.prototype] are not told apart from other keys. *)
Definition merge_record (resultsMap : gmap jsstring value) (r : value)
  : result (gmap jsstring value) :=
  do source_url <- get r "source_url";
  do key <- normalizeUrl source_url;
  if negb (truthy (default VUndefined (resultsMap !! key)))
     || is_string (get_opt r "prediction") "Fake"
  then ret (<[key := r]> resultsMap)
  else ret resultsMap.

Definition merge_results (all_results : list value) : result (gmap jsstring value) :=
  forEach merge_record all_results ∅.

(** The state of [ScanOverlay] that the poll and the rendering use, after the
    initial load has stored the website list. *)
Record stats_t := { total : value; found : value }.

Record overlay := {
  websites : list jsstring;
  loading : bool;
  error : option jsstring;
  scanResults : gmap jsstring value;
  stats : stats_t
}.

Definition initial (sites : list jsstring) : overlay :=
  {| websites := sites; loading := false; error := None;
     scanResults := ∅;
     stats := {| total := VNumber 0; found := VNumber 0 |} |}.

(** The [.then(data => ...)] callback of a poll. *)
Definition on_results (data : value) (st : overlay) : result overlay :=
  do success <- get data "success";
  if truthy success then
    do all_results <- get data "all_results";
    if truthy all_results then
      match all_results with
      | VArray rs =>
          do resultsMap <- merge_results rs;
          let summary := get_opt data "summary" in
          ret {| websites := websites st; loading := loading st; error := error st;
                 scanResults := resultsMap;
                 stats := {| total := or_else (get_opt summary "total_scanned") (VNumber 0);
                             found := or_else (get_opt summary "deepfakes_found") (VNumber 0) |} |}
      | _ => throw (TypeError "data.all_results.forEach is not a function")
      end
    else ret st
  else ret st.

(** One poll: [response] is what [res.json()] resolves to, or its rejection;
    [.catch(console.error)] leaves the state as it was. *)
Definition poll (response : result value) (st : overlay) : overlay :=
  match (do data <- response; on_results data st) with
  | inl _ => st
  | inr st' => st'
  end.

(** The interval callback exists only while [loading] and [error] are
    falsy. *)
Definition tick (response : result value) (st : overlay) : overlay :=
  let error_truthy := match error st with Some (_ :: _) => true | _ => false end in
  if loading st || error_truthy then st else poll response st.

(** Per-site rendering: [Scanning] without a result, [Threat] when the
    result's prediction is ['Fake'], [Safe] otherwise. *)
Inductive site_status := Scanning | Safe | Threat.

Definition status_of (st : overlay) (site : jsstring) : site_status :=
  match normalizeUrl (VString site) with
  | inl _ => Scanning
  | inr key =>
      let result := default VUndefined (scanResults st !! key) in
      if truthy result then
        if is_string (get_opt result "prediction") "Fake" then Threat else Safe
      else Scanning
  end.

(** [websites.length > 0 ? (stats.total / websites.length) * 100 : 0]. *)
Definition progressPercentage (st : overlay) : float :=
  if bool_decide (0 < length (websites st))
  then (ToNumber (total (stats st)) / float_of_Z (Z.of_nat (length (websites st))) * 100)%float
  else PrimFloat.zero.

(** *** Vocabulary for the statements about the merge *)

(** The key under which the callback files a record:
    [normalizeUrl(r.source_url)]. *)
Definition key_of (r : value) : result jsstring :=
  do source_url <- get r "source_url"; normalizeUrl source_url.

(** [r.prediction === 'Fake'] and [r.prediction === 'Real']. *)
Definition is_fake (r : value) : bool := is_string (get_opt r "prediction") "Fake".
Definition is_real (r : value) : bool := is_string (get_opt r "prediction") "Real".

(** [r] is a Fake record filed under [key]. *)
Definition fake_for (key : jsstring) (r : value) : bool :=
  is_fake r && match key_of r with
               | inr k => bool_decide (k = key)
               | inl _ => false
               end.

(** The last Fake record of a results set filed under [key]. *)
Definition last_fake (key : jsstring) (rs : list value) : option value :=
  last (filter (λ r, fake_for key r) rs).

(** The shapes the external scanner writes: a scan result record
    [{source_url, prediction, confidence}] and a results document
    [{all_results, summary: {total_scanned, deepfakes_found}}] as the
    endpoint serves it, with [success: true] in front. *)
Definition scan_record (source_url prediction : string) (confidence : float) : value :=
  VObject [(js "source_url", VString (js source_url));
           (js "prediction", VString (js prediction));
           (js "confidence", VNumber confidence)].

Definition results_document (all_results : list value) (total_scanned deepfakes_found : float)
  : value :=
  VObject [(js "success", VBool true);
           (js "all_results", VArray all_results);
           (js "summary", VObject [(js "total_scanned", VNumber total_scanned);
                                   (js "deepfakes_found", VNumber deepfakes_found)])].

(** [data.name] is read without an exception and is truthy. *)
Definition truthy_property (data : value) (name : string) : bool :=
  match get data name with
  | inr v => truthy v
  | inl _ => false
  end.

(** [r] is an object. *)
Definition is_object (r : value) : bool :=
  match r with VObject _ => true | _ => false end.

(** [r] is filed under [key] by the callback. *)
Definition filed_under (key : jsstring) (r : value) : bool :=
  match key_of r with
  | inr k => bool_decide (k = key)
  | inl _ => false
  end.

(** An element of [all_results] that the callback can file: an object whose
    [source_url] is a string or falsy. *)
Definition well_formed (r : value) : bool :=
  is_object r && match key_of r with inr _ => true | inl _ => false end.

(** The first record of a results set filed under [key]. *)
Definition first_filed (key : jsstring) (rs : list value) : option value :=
  head (filter (λ r, filed_under key r) rs).

(** The entry the loop leaves under [key]: the last Fake record of the key,
    or else the first record of the key. *)
Definition merged_entry (key : jsstring) (rs : list value) : option value :=
  match last_fake key rs with
  | Some r => Some r
  | None => first_filed key rs
  end.

(** The names that an object literal inherits from [Object.prototype].
    [resultsMap] and [scanResults] are object literals: under these names a
    lookup finds the inherited member, and an assignment to [__proto__]
    replaces the prototype.  The [gmap] agrees with the object on results
    sets and sites whose keys are none of these names. *)
Definition Object_prototype_members : list jsstring :=
  [js "constructor"; js "__defineGetter__"; js "__defineSetter__";
   js "hasOwnProperty"; js "__lookupGetter__"; js "__lookupSetter__";
   js "isPrototypeOf"; js "propertyIsEnumerable"; js "toString"; js "valueOf";
   js "__proto__"; js "toLocaleString"].

Definition plain_key (key : jsstring) : bool :=
  bool_decide (key ∉ Object_prototype_members).

(** [r] is filed under a key that is no member name. *)
Definition plainly_filed (r : value) : bool :=
  match key_of r with
  | inr k => plain_key k
  | inl _ => false
  end.

(** The key of a site of the website list (a string). *)
Definition site_key (site : jsstring) : jsstring :=
  strip_scheme (strip_trailing_slash site).

End Client.

(** ** Server: the Express handlers *)

Module Server.

Record response := { status : nat; body : value }.

(** [{ success: false, error: msg }]. *)
Definition failure (msg : string) : value :=
  VObject [(js "success", VBool false); (js "error", VString (js msg))].

(** [{ success: true, results: [], summary: { total_scanned: 0 } }]. *)
Definition empty_summary : value :=
  VObject [(js "success", VBool true);
           (js "results", VArray []);
           (js "summary", VObject [(js "total_scanned", VNumber 0)])].

Inductive log_detail :=
| Text (s : jsstring)
| Error (e : exn).

(** What a handler does, in order.  File paths are written relative to
    [__dirname]. *)
Inductive effect :=
| console_log (msg : jsstring)
| console_error (label : string) (detail : log_detail)
| write_file (path : jsstring)
| spawn (command : jsstring) (args : list jsstring) (detached : bool)
| unref
| unhandled_error_event (errno : string)
| unlink_file (path : jsstring)
| next_error (code : string)
| respond (r : response).

(** [res.json(b)] answers with status 200, [res.status(c).json(b)] with [c];
    the body that is sent is the JSON text of [b], recorded as the value that
    this text denotes. *)
Definition res_json (b : value) : effect :=
  respond {| status := 200; body := as_json b |}.
Definition res_status_json (c : nat) (b : value) : effect :=
  respond {| status := c; body := as_json b |}.

(** The JSON response a request gets from a handler: the first one sent. *)
Fixpoint response_of (trace : list effect) : option response :=
  match trace with
  | [] => None
  | respond r :: _ => Some r
  | _ :: rest => response_of rest
  end.

Definition is_spawn (e : effect) : bool :=
  match e with spawn _ _ _ => true | _ => false end.
Definition is_write (e : effect) : bool :=
  match e with write_file _ => true | _ => false end.
Definition is_respond (e : effect) : bool :=
  match e with respond _ => true | _ => false end.
Definition is_console_error (e : effect) : bool :=
  match e with console_error _ _ => true | _ => false end.
Definition is_unhandled (e : effect) : bool :=
  match e with unhandled_error_event _ => true | _ => false end.

(** How a request is answered: by a JSON response of a handler, or, when a
    middleware passes an error to [next] (no error handler is registered),
    by the error page of Express, whose status is 500 for an error that
    carries no status of its own. *)
Inductive answer :=
| Json (r : response)
| ErrorPage (status : nat).

Fixpoint answer_of (trace : list effect) : option answer :=
  match trace with
  | [] => None
  | respond r :: _ => Some (Json r)
  | next_error _ :: _ => Some (ErrorPage 500)
  | _ :: rest => answer_of rest
  end.

(** An ['error'] event emitted on an object that has no listener for it is
    thrown; nothing in the file catches it, so the server process ends. *)
Definition server_survives (trace : list effect) : bool :=
  negb (existsb is_unhandled trace).

(** *** POST /api/v1/analyze *)

(** The disk storage configured above the route: the file that
    [upload.single('image')] accepts, when there is one, is written to
    [uploads/<Date.now()>-<originalname>] and described by [req.file]. *)
Record file_part := { originalname : jsstring }.
Record req_file := { path : jsstring }.

Definition upload_single (now : N) (image : option file_part)
  : list effect * option req_file :=
  match image with
  | None => ([], None)
  | Some f =>
      let p := js "uploads/" ++ js (pretty now) ++ js "-" ++ originalname f in
      ([write_file p], Some {| path := p |})
  end.

(** The parts of the multipart body that carry a file, in the order they
    arrive, each under the name of its form field (a body that is not
    multipart has none). *)
Record uploaded_part := { fieldname : jsstring; file : file_part }.

Definition image_part (name : string) : uploaded_part :=
  {| fieldname := js "image"; file := {| originalname := js name |} |}.

(** [upload.single('image')]: one file is allowed, under the field [image].
    A file under another field, or a further file, is an unexpected file:
    what was stored is removed and the error is passed to [next], so the
    handler does not run. *)
Definition upload_single_image (now : N) (parts : list uploaded_part)
  : list effect * option (option req_file) :=
  match parts with
  | [] => let '(written, req_file) := upload_single now None in (written, Some req_file)
  | p :: rest =>
      if bool_decide (fieldname p = js "image") then
        let '(written, req_file) := upload_single now (Some (file p)) in
        match rest with
        | [] => (written, Some req_file)
        | _ :: _ =>
            (written
             ++ match req_file with
                | Some f => [unlink_file (path f)]
                | None => []
                end
             ++ [next_error "LIMIT_UNEXPECTED_FILE"], None)
        end
      else ([next_error "LIMIT_UNEXPECTED_FILE"], None)
  end.

(** [.] of a regular expression without the [s] flag. *)
Definition is_dot (c : N) : bool := negb (is_line_terminator c).

(** [dataString.match(/\[Result\] Class: (.+)/)], its first group: at the
    leftmost position where the literal text is followed by at least one
    character of the same line, the rest of that line. *)
Fixpoint match_class (s : jsstring) : option jsstring :=
  match s with
  | [] => None
  | _ :: s' =>
      match strip_prefix (js "[Result] Class: ") s with
      | Some rest =>
          match take_while is_dot rest with
          | [] => match_class s'
          | group => Some group
          end
      | None => match_class s'
      end
  end.

(** The part of [line] before its last [%], if it has one. *)
Fixpoint before_last_percent (line : jsstring) : option jsstring :=
  match line with
  | [] => None
  | c :: line' =>
      match before_last_percent line' with
      | Some g => Some (c :: g)
      | None => if (c =? chr "%")%N then Some [] else None
      end
  end.

(** [dataString.match(/\[Confidence\] (.+)%/)], its first group: at the
    leftmost position where the literal text is followed, on the same line, by
    at least one character and then a [%], everything up to the last [%] of
    that line (the group is greedy). *)
Fixpoint match_conf (s : jsstring) : option jsstring :=
  match s with
  | [] => None
  | _ :: s' =>
      match strip_prefix (js "[Confidence] ") s with
      | Some rest =>
          match before_last_percent (take_while is_dot rest) with
          | Some (c :: g) => Some (c :: g)
          | _ => match_conf s'
          end
      | None => match_conf s'
      end
  end.

(** The ['close'] listener. [code] is the exit code, or [null] when the
    process was ended by a signal. *)
Definition on_close (dataString errorString : jsstring) (code : option Z)
  : list effect :=
  if negb (bool_decide (code = Some 0%Z)) then
    [console_error "Python Script Error:" (Text errorString);
     res_status_json 500 (failure "Analysis execution failed")]
  else
    match match_class dataString, match_conf dataString with
    | Some classMatch1, Some confMatch1 =>
        [res_json
           (VObject
              [(js "success", VBool true);
               (js "result",
                VObject [(js "label", VString (trim classMatch1));
                         (js "confidence", VNumber (parseFloat confMatch1));
                         (js "isFake", VBool (includes (js "Fake") classMatch1))])])]
    | _, _ =>
        [console_error "Parse Error, Output:" (Text dataString);
         res_status_json 500 (failure "Failed to parse analysis results")]
    end.

(** A run of the child process: the chunks it wrote to its two streams and
    how it closed, or a process that never closes. *)
Inductive child_run :=
| Closes (stdout stderr : list jsstring) (code : option Z)
| NeverCloses.

Definition analyze (file : option req_file) (run : child_run) : list effect :=
  match file with
  | None => [res_status_json 400 (failure "No image file uploaded")]
  | Some f =>
      spawn (js "python") [js "../ml_service/predict.py"; path f] false
      :: match run with
         | Closes stdout stderr code => on_close (concat stdout) (concat stderr) code
         | NeverCloses => []
         end
  end.

(** The success body built by the ['close'] listener. *)
Definition verdict (label : jsstring) (confidence : float) (isFake : bool) : value :=
  VObject [(js "success", VBool true);
           (js "result",
            VObject [(js "label", VString label);
                     (js "confidence", VNumber confidence);
                     (js "isFake", VBool isFake)])].

(** The success body as it is sent. *)
Definition verdict_sent (label : jsstring) (confidence : value) (isFake : bool) : value :=
  VObject [(js "success", VBool true);
           (js "result",
            VObject [(js "label", VString label);
                     (js "confidence", confidence);
                     (js "isFake", VBool isFake)])].

(** [0 <= x && x <= 100] on doubles ([NaN] is outside). *)
Definition confidence_in_range (x : float) : bool :=
  ((0 <=? x) && (x <=? 100))%float.

(** An output of the analysis script in the expected format, with a
    confidence above 100. *)
Definition stdout_150 : jsstring :=
  js "[Result] Class: Fake" ++ [10%N] ++ js "[Confidence] 150%" ++ [10%N].

(** A results document as the scanner writes it to [scan_results.json]:
    [{"all_results": [{"source_url": "https://www.a.com/", "prediction":
    "Fake", "confidence": 91.5}], "summary": {"total_scanned": 1,
    "deepfakes_found": 1}}]. *)
Definition scan_results_json : jsstring :=
  js "{" ++ quoted "all_results" ++ js ": [{"
  ++ quoted "source_url" ++ js ": " ++ quoted "https://www.a.com/" ++ js ", "
  ++ quoted "prediction" ++ js ": " ++ quoted "Fake" ++ js ", "
  ++ quoted "confidence" ++ js ": 91.5}], "
  ++ quoted "summary" ++ js ": {" ++ quoted "total_scanned" ++ js ": 1, "
  ++ quoted "deepfakes_found" ++ js ": 1}}".

(** The route: the upload middleware, then the handler unless the
    middleware ended the request. *)
Definition post_analyze (now : N) (parts : list uploaded_part) (run : child_run)
  : list effect :=
  match upload_single_image now parts with
  | (stored, Some req_file) => stored ++ analyze req_file run
  | (stored, None) => stored
  end.

(** *** POST /api/v1/global-scan *)

(** [spawn] returns a child object at once; whether the process started is
    known later, through an ['error'] event of the child.  The handler
    registers no listener on the child. *)
Inductive spawn_outcome :=
| Started
| StartFailed (errno : string).

Definition global_scan_handler : list effect :=
  [console_log (js "[Global Scan] Initiating scan using ../ml_service/deepfake_scanner.py");
   spawn (js "python") [js "../ml_service/deepfake_scanner.py"] true;
   unref;
   res_json (VObject [(js "success", VBool true);
                      (js "message", VString (js "Global deepfake scan initiated in background."))])].

(** The handler runs to its end before any event of the child is
    delivered. *)
Definition post_global_scan (outcome : spawn_outcome) : list effect :=
  global_scan_handler ++
  match outcome with
  | Started => []
  | StartFailed errno => [unhandled_error_event errno]
  end.

(** *** GET /api/v1/websites *)

(** [s.split(sep)] for a one-character separator. *)
Fixpoint split (sep : N) (s : jsstring) : list jsstring :=
  match s with
  | [] => [[]]
  | c :: s' =>
      if (c =? sep)%N then [] :: split sep s'
      else match split sep s' with
           | line :: lines => (c :: line) :: lines
           | [] => [[c]]
           end
  end.

Definition get_websites (read : result jsstring) : list effect :=
  match read with
  | inl err =>
      [console_error "Error reading websites.txt:" (Error err);
       res_status_json 500 (failure "Failed to load website list")]
  | inr data =>
      let websites :=
        filter (λ line, 0 < length line) (trim <$> split 10 data) in
      [res_json (VObject [(js "success", VBool true);
                          (js "websites", VArray (VString <$> websites))])]
  end.

(** *** GET /api/v1/scan-results *)

(** The own enumerable properties that [...v] copies (an array or a string
    gives its indices as keys).  A JavaScript object lists integer-like keys
    first; property lists here keep the order of assignment, which no lookup
    depends on. *)
Definition spread_properties (v : value) : list (jsstring * value) :=
  match v with
  | VObject props => props
  | VArray elems => imap (λ i x, (js (pretty (N.of_nat i)), x)) elems
  | VString s => imap (λ i c, (js (pretty (N.of_nat i)), VString [c])) s
  | _ => []
  end.

(** [{ success: true, ...jsonData }]. *)
Definition success_with (jsonData : value) : value :=
  VObject (foldl (λ props kv, set_property kv.1 kv.2 props)
                 [(js "success", VBool true)]
                 (spread_properties jsonData)).

Section ScanResults.

(** The [JSON.parse] the handler calls: the parsed value, or the
    [SyntaxError] it throws.  The statements below hold for any such
    function; the closed examples use [JSON_parse]. *)
Variable parse : jsstring → result value.

(** [exists] is what [fs.existsSync] answered, [read] what [fs.readFile]
    passed to its callback (not consulted when the file does not exist). *)
Definition get_scan_results (exists_ : bool) (read : result jsstring)
  : list effect :=
  if negb exists_ then [res_json empty_summary]
  else
    match read with
    | inl err =>
        [console_error "Error reading results:" (Error err);
         res_status_json 500 (failure "Failed to load results")]
    | inr data =>
        match parse data with
        | inr jsonData => [res_json (success_with jsonData)]
        | inl _ => [res_json empty_summary]
        end
    end.

End ScanResults.

(** *** Vocabulary for the statements about the handlers *)

(** The list that [/api/v1/websites] serves for the contents [data] of
    [websites.txt]. *)
Definition website_list (data : jsstring) : list jsstring :=
  filter (λ line, 0 < length line) (trim <$> split 10 data).

(** An output of the analysis script in the format the handler expects:
    some text, the class line, the confidence line, more text. *)
Definition script_output (preamble label confidence rest : jsstring) : jsstring :=
  preamble ++ js "[Result] Class: " ++ label ++ [10%N]
  ++ js "[Confidence] " ++ confidence ++ js "%" ++ [10%N] ++ rest.

(** The text left on the line of [s]: up to its first line terminator. *)
Definition rest_of_line (s : jsstring) : jsstring := take_while is_dot s.

End Server.

(** * Properties *)

Import Client Server.

(** ** The embedding on concrete inputs *)

Example normalizeUrl_full : normalizeUrl (VString (js "https://www.a.com/")) = ret (js "a.com").
Proof. reflexivity. Qed.

Example normalizeUrl_plain : normalizeUrl (VString (js "a.com")) = ret (js "a.com").
Proof. reflexivity. Qed.

Example normalizeUrl_one_slash : normalizeUrl (VString (js "a.com//")) = ret (js "a.com/").
Proof. reflexivity. Qed.

Example normalizeUrl_undefined : normalizeUrl VUndefined = ret [].
Proof. reflexivity. Qed.

Example normalizeUrl_number :
  normalizeUrl (VNumber 5) = throw (TypeError "url.replace is not a function").
Proof. reflexivity. Qed.

Example match_class_line :
  match_class (js "Loading model" ++ [10%N] ++ js "[Result] Class: Real  " ++ [13%N; 10%N])
  = Some (js "Real  ").
Proof. reflexivity. Qed.

Example match_class_empty_line : match_class (js "[Result] Class: " ++ [10%N] ++ js "Fake") = None.
Proof. reflexivity. Qed.

Example match_conf_greedy : match_conf (js "[Confidence] 12% of 100% sure") = Some (js "12% of 100").
Proof. reflexivity. Qed.

Example match_conf_no_number : match_conf (js "[Confidence] %") = None.
Proof. reflexivity. Qed.

Example parseFloat_examples :
  parseFloat (js "99.5") = 99.5%float ∧ parseFloat (js " 42abc") = 42%float
  ∧ parseFloat (js "-1.5e2") = (-150)%float ∧ parseFloat (js ".5") = 0.5%float
  ∧ is_nan (parseFloat (js "high")) = true ∧ parseFloat (js "1e999") = infinity.
Proof. repeat split. Qed.

Example JSON_parse_document :
  JSON_parse scan_results_json
  = ret (VObject [(js "all_results", VArray [scan_record "https://www.a.com/" "Fake" 91.5]);
                  (js "summary", VObject [(js "total_scanned", VNumber 1);
                                          (js "deepfakes_found", VNumber 1)])]).
Proof. reflexivity. Qed.

Example JSON_parse_rejects :
  (∃ e, JSON_parse (js "{") = throw e) ∧ (∃ e, JSON_parse (js "[1,]") = throw e)
  ∧ (∃ e, JSON_parse (js "01") = throw e) ∧ (∃ e, JSON_parse (js "null null") = throw e).
Proof. repeat split; by eexists. Qed.

Example get_websites_lines :
  response_of (get_websites (ret (js "a.com" ++ [10%N] ++ js "  b.com " ++ [10%N; 10%N])))
  = Some {| status := 200;
            body := VObject [(js "success", VBool true);
                             (js "websites", VArray [VString (js "a.com"); VString (js "b.com")])] |}.
Proof. reflexivity. Qed.

(** From the results file to the rendering: the document is served with
    [success: true] in front, polled, merged, and the site is a threat. *)
Example served_polled_rendered :
  response_of (get_scan_results JSON_parse true (ret scan_results_json))
  = Some {| status := 200;
            body := results_document [scan_record "https://www.a.com/" "Fake" 91.5] 1 1 |}
  ∧ status_of (poll (ret (results_document [scan_record "https://www.a.com/" "Fake" 91.5] 1 1))
                    (initial [js "a.com"; js "b.com"]))
    <$> [js "a.com"; js "b.com"]
    = [Threat; Scanning].
Proof. split; reflexivity. Qed.

(** ** Strings *)

Section StringFacts.

Implicit Types p s t : jsstring.

Lemma strip_prefix_app p s : strip_prefix p (p ++ s) = Some s.
Proof.
  induction p as [|a p IH]; simpl; [done|].
  by rewrite N.eqb_refl.
Qed.

Lemma strip_prefix_Some p s t : strip_prefix p s = Some t → s = p ++ t.
Proof.
  revert s. induction p as [|a p IH]; intros s; simpl.
  - by intros [= ->].
  - destruct s as [|b s]; [done|].
    destruct (N.eqb_spec a b) as [->|]; [|done].
    intros H. by rewrite (IH _ H).
Qed.

Lemma starts_with_app p s : starts_with p (p ++ s) = true.
Proof. unfold starts_with. by rewrite strip_prefix_app. Qed.

Lemma starts_with_true p s : starts_with p s = true → ∃ t, s = p ++ t.
Proof.
  unfold starts_with. destruct (strip_prefix p s) as [t|] eqn:E; [|done].
  intros _. exists t. by apply strip_prefix_Some.
Qed.

(** A prefix of a longer string is a prefix of the string. *)
Lemma starts_with_extend p s t : starts_with p s = true → starts_with p (s ++ t) = true.
Proof.
  intros [u ->]%starts_with_true. rewrite <- app_assoc. apply starts_with_app.
Qed.

Lemma starts_with_false_None p s : starts_with p s = false → strip_prefix p s = None.
Proof. unfold starts_with. by destruct (strip_prefix p s). Qed.

Lemma includes_head p s : starts_with p s = true → includes p s = true.
Proof. destruct s; simpl; by intros ->. Qed.

Lemma includes_spec p s : includes p s = true ↔ ∃ a b, s = a ++ p ++ b.
Proof.
  split.
  - induction s as [|c s IH]; simpl.
    + rewrite orb_false_r. intros [t ->]%starts_with_true. by exists [], t.
    + intros [[t ->]%starts_with_true | H]%orb_true_iff.
      * by exists [], t.
      * destruct (IH H) as (a & b & ->). by exists (c :: a), b.
  - intros (a & b & ->). induction a as [|c a IH]; simpl.
    + apply includes_head, starts_with_app.
    + rewrite IH. apply orb_true_r.
Qed.

Lemma includes_rev p s : includes (rev p) (rev s) = includes p s.
Proof.
  apply eq_true_iff_eq. rewrite !includes_spec. split.
  - intros (a & b & H). exists (rev b), (rev a).
    apply (f_equal (@rev N)) in H.
    by rewrite rev_involutive, !rev_app_distr, rev_involutive, <- app_assoc in H.
  - intros (a & b & ->). exists (rev b), (rev a).
    by rewrite !rev_app_distr, <- app_assoc.
Qed.

(** Dropping leading characters that cannot start [p] loses no occurrence
    of [p]. *)
Lemma includes_drop_while (f : N → bool) c p s :
  f c = false → includes (c :: p) (drop_while f s) = includes (c :: p) s.
Proof.
  intros Hc. induction s as [|d s IH]; [done|].
  cbn [drop_while]. destruct (f d) eqn:Hd; [|done].
  rewrite IH. symmetry. change (includes (c :: p) (d :: s))
    with (starts_with (c :: p) (d :: s) || includes (c :: p) s).
  unfold starts_with at 1. cbn [strip_prefix].
  destruct (N.eqb_spec c d) as [->|]; [congruence|done].
Qed.

Lemma includes_trimStart c p s :
  is_whitespace c = false → includes (c :: p) (trimStart s) = includes (c :: p) s.
Proof. apply includes_drop_while. Qed.

Lemma includes_trimEnd c p s :
  is_whitespace c = false → includes (p ++ [c]) (trimEnd s) = includes (p ++ [c]) s.
Proof.
  intros Hc. unfold trimEnd.
  rewrite <- (includes_rev _ (rev _)), rev_involutive, rev_app_distr. simpl.
  rewrite includes_drop_while by done.
  rewrite <- (rev_involutive (c :: rev p)), includes_rev.
  simpl. by rewrite rev_involutive.
Qed.

(** A text that starts and ends with a character that is no white space
    occurs in [trim s] exactly when it occurs in [s]. *)
Lemma includes_trim c p d s :
  is_whitespace c = false → is_whitespace d = false →
  includes (c :: p ++ [d]) (trim s) = includes (c :: p ++ [d]) s.
Proof.
  intros Hc Hd. unfold trim.
  rewrite (includes_trimEnd d (c :: p)) by done.
  by apply includes_trimStart.
Qed.

Lemma includes_Fake_trim s : includes (js "Fake") (trim s) = includes (js "Fake") s.
Proof. by apply (includes_trim 70%N [97%N; 107%N] 101%N). Qed.

End StringFacts.

(** ** Client: normalized keys *)

Section NormalizeFacts.

Implicit Types p s t : jsstring.

Lemma ends_with_slash_snoc s c : ends_with_slash (s ++ [c]) = (c =? chr "/")%N.
Proof. unfold ends_with_slash. by rewrite last_snoc. Qed.

Lemma strip_trailing_slash_snoc s c :
  strip_trailing_slash (s ++ [c]) = if (c =? chr "/")%N then s else s ++ [c].
Proof.
  unfold strip_trailing_slash. rewrite ends_with_slash_snoc.
  destruct (c =? chr "/")%N; [apply removelast_last|done].
Qed.

Lemma strip_trailing_slash_id s : ends_with_slash s = false → strip_trailing_slash s = s.
Proof. unfold strip_trailing_slash. by intros ->. Qed.

(** Only the end of the string is looked at. *)
Lemma strip_trailing_slash_app p s :
  s ≠ [] → strip_trailing_slash (p ++ s) = p ++ strip_trailing_slash s.
Proof.
  destruct s as [|c s _] using rev_ind; [done|]. intros _.
  rewrite app_assoc, !strip_trailing_slash_snoc.
  destruct (c =? chr "/")%N; [done|]. by rewrite app_assoc.
Qed.

(** What is left is a prefix of the string. *)
Lemma strip_trailing_slash_prefix s : ∃ t, s = strip_trailing_slash s ++ t.
Proof.
  destruct s as [|c s _] using rev_ind; [by exists []|].
  rewrite strip_trailing_slash_snoc.
  destruct (c =? chr "/")%N; [by exists [c]|exists []; by rewrite app_nil_r].
Qed.

Lemma starts_with_strip_trailing_slash p s :
  starts_with p s = false → starts_with p (strip_trailing_slash s) = false.
Proof.
  intros H. destruct (starts_with p (strip_trailing_slash s)) eqn:E; [|done].
  destruct (strip_trailing_slash_prefix s) as [t Ht].
  rewrite Ht, (starts_with_extend _ _ t E) in H. done.
Qed.

Lemma strip_www_app s : strip_www (js "www." ++ s) = s.
Proof. unfold strip_www. by rewrite strip_prefix_app. Qed.

Lemma strip_www_id s : starts_with (js "www.") s = false → strip_www s = s.
Proof. intros H%starts_with_false_None. unfold strip_www. by rewrite H. Qed.

Lemma strip_scheme_https s : strip_scheme (js "https://" ++ s) = strip_www s.
Proof. unfold strip_scheme. by rewrite strip_prefix_app. Qed.

Lemma strip_scheme_http s : strip_scheme (js "http://" ++ s) = strip_www s.
Proof. reflexivity. Qed.

Lemma strip_scheme_id s :
  starts_with (js "http://") s = false → starts_with (js "https://") s = false →
  strip_scheme s = s.
Proof.
  intros H1%starts_with_false_None H2%starts_with_false_None.
  unfold strip_scheme. by rewrite H1, H2.
Qed.

(** [normalizeUrl] never throws on a string. *)
Lemma normalizeUrl_string s :
  normalizeUrl (VString s) = ret (strip_scheme (strip_trailing_slash s)).
Proof. by destruct s. Qed.

End NormalizeFacts.

(** C2, as the code has it.  The keys of two site identifiers coincide when
    they differ by one trailing slash, by [http://] against [https://], by a
    [www.] that directly follows the scheme, or by a scheme in front of an
    identifier that starts with neither a scheme nor [www.].  A [www.] with
    no scheme before it is kept in the key. *)
Theorem normalizeUrl_same_key (s : jsstring) :
  (ends_with_slash s = false →
   normalizeUrl (VString (s ++ js "/")) = normalizeUrl (VString s)) ∧
  (s ≠ [] →
   normalizeUrl (VString (js "http://" ++ s)) = normalizeUrl (VString (js "https://" ++ s))) ∧
  (s ≠ [] → starts_with (js "www.") s = false →
   normalizeUrl (VString (js "https://www." ++ s)) = normalizeUrl (VString (js "https://" ++ s)) ∧
   normalizeUrl (VString (js "http://www." ++ s)) = normalizeUrl (VString (js "http://" ++ s))) ∧
  (s ≠ [] → starts_with (js "www.") s = false →
   starts_with (js "http://") s = false → starts_with (js "https://") s = false →
   normalizeUrl (VString (js "https://" ++ s)) = normalizeUrl (VString s) ∧
   normalizeUrl (VString (js "http://" ++ s)) = normalizeUrl (VString s)) ∧
  normalizeUrl (VString (js "www." ++ s)) = ret (js "www." ++ strip_trailing_slash s).
Proof.
  assert (Hhttps : s ≠ [] →
    normalizeUrl (VString (js "https://" ++ s)) = ret (strip_www (strip_trailing_slash s))).
  { intros Hs. by rewrite normalizeUrl_string, strip_trailing_slash_app, strip_scheme_https. }
  assert (Hhttp : s ≠ [] →
    normalizeUrl (VString (js "http://" ++ s)) = ret (strip_www (strip_trailing_slash s))).
  { intros Hs. by rewrite normalizeUrl_string, strip_trailing_slash_app, strip_scheme_http. }
  assert (Hwww : ∀ scheme, s ≠ [] →
    strip_trailing_slash ((scheme ++ js "www.") ++ s)
    = scheme ++ js "www." ++ strip_trailing_slash s).
  { intros scheme Hs. by rewrite strip_trailing_slash_app, <- app_assoc. }
  repeat split.
  - intros Hs. rewrite !normalizeUrl_string.
    change (js "/") with [chr "/"]. rewrite strip_trailing_slash_snoc, N.eqb_refl.
    by rewrite strip_trailing_slash_id.
  - intros Hs. by rewrite Hhttps, Hhttp.
  - rewrite Hhttps, normalizeUrl_string by done.
    change (js "https://www.") with (js "https://" ++ js "www.").
    rewrite Hwww, strip_scheme_https, strip_www_app by done.
    by rewrite strip_www_id by by apply starts_with_strip_trailing_slash.
  - rewrite Hhttp, normalizeUrl_string by done.
    change (js "http://www.") with (js "http://" ++ js "www.").
    rewrite Hwww, strip_scheme_http, strip_www_app by done.
    by rewrite strip_www_id by by apply starts_with_strip_trailing_slash.
  - rewrite Hhttps, normalizeUrl_string by done.
    rewrite strip_www_id, strip_scheme_id
      by by apply starts_with_strip_trailing_slash. done.
  - rewrite Hhttp, normalizeUrl_string by done.
    rewrite strip_www_id, strip_scheme_id
      by by apply starts_with_strip_trailing_slash. done.
  - rewrite normalizeUrl_string. f_equal.
    destruct s as [|c s _] using rev_ind; [done|].
    rewrite strip_trailing_slash_app by by destruct s.
    remember (strip_trailing_slash (s ++ [c])) as u. reflexivity.
Qed.

Lemma normalizeUrl_same_key_witness :
  normalizeUrl (VString (js "a.com" ++ js "/")) = normalizeUrl (VString (js "a.com")) ∧
  normalizeUrl (VString (js "http://" ++ js "a.com")) = normalizeUrl (VString (js "https://" ++ js "a.com")) ∧
  normalizeUrl (VString (js "https://www." ++ js "a.com")) = normalizeUrl (VString (js "https://" ++ js "a.com")) ∧
  normalizeUrl (VString (js "https://" ++ js "a.com")) = normalizeUrl (VString (js "a.com")).
Proof.
  destruct (normalizeUrl_same_key (js "a.com")) as (H1 & H2 & H3 & H4 & _).
  split; [apply H1; reflexivity|].
  split; [apply H2; discriminate|].
  split; [apply H3; [discriminate|reflexivity]|].
  apply H4; [discriminate|reflexivity..].
Defined.

(** C2 as stated fails: identifiers that differ only by a leading [www.], or
    only by the scheme, can get different keys. *)
Lemma normalizeUrl_www_not_stripped :
  normalizeUrl (VString (js "www.a.com")) = ret (js "www.a.com") ∧
  normalizeUrl (VString (js "a.com")) = ret (js "a.com") ∧
  normalizeUrl (VString (js "https://www.a.com")) = ret (js "a.com") ∧
  normalizeUrl (VString (js "www.a.com")) ≠ normalizeUrl (VString (js "a.com")) ∧
  normalizeUrl (VString (js "https://www.a.com")) ≠ normalizeUrl (VString (js "www.a.com")).
Proof. repeat split; discriminate. Qed.

(** ** Client: the merge of polled results *)

Section MergeFacts.

Implicit Types (m : gmap jsstring value) (r : value) (rs : list value)
  (key : jsstring).

Lemma forEach_snoc {A S} (f : S → A → result S) (l : list A) (a : A) (acc : S) :
  forEach f (l ++ [a]) acc = do acc' <- forEach f l acc; f acc' a.
Proof.
  revert acc. induction l as [|b l IH]; intros acc; simpl.
  - by destruct (f acc a).
  - destruct (f acc b); simpl; [done|apply IH].
Qed.

(** The callback, read through [key_of] and [is_fake]. *)
Lemma merge_record_unfold m r :
  merge_record m r =
  do key <- key_of r;
  if negb (truthy (default VUndefined (m !! key))) || is_fake r
  then ret (<[key := r]> m) else ret m.
Proof. unfold merge_record, key_of. by destruct (get r "source_url"). Qed.

(** A record whose prediction is ['Fake'] is an object, hence truthy. *)
Lemma is_fake_truthy r : is_fake r = true → truthy r = true.
Proof. by destruct r. Qed.

(** Fake verdicts overwrite any existing entry. *)
Lemma merge_record_fake m r key :
  key_of r = ret key → is_fake r = true →
  merge_record m r = ret (<[key := r]> m).
Proof.
  intros Hk Hf. rewrite merge_record_unfold, Hk, Hf. simpl.
  by rewrite orb_true_r.
Qed.

(** Other verdicts never overwrite an existing entry for the same key. *)
Lemma merge_record_keep m r key old :
  key_of r = ret key → is_fake r = false →
  m !! key = Some old → truthy old = true →
  merge_record m r = ret m.
Proof.
  intros Hk Hf Hm Ht. rewrite merge_record_unfold, Hk, Hf. simpl.
  by rewrite Hm; simpl; rewrite Ht.
Qed.

(** A record is filed under its own key only. *)
Lemma merge_record_other m m' r key :
  merge_record m r = ret m' → key_of r ≠ ret key → m' !! key = m !! key.
Proof.
  rewrite merge_record_unfold. destruct (key_of r) as [e|k]; [done|]. simpl.
  intros Hm Hne.
  assert (k ≠ key) by (intros ->; by apply Hne).
  destruct (_ || _); injection Hm as <-; [by rewrite lookup_insert_ne|done].
Qed.

Lemma last_fake_snoc key rs r :
  last_fake key (rs ++ [r]) = if fake_for key r then Some r else last_fake key rs.
Proof.
  unfold last_fake. rewrite filter_app, filter_singleton; [|exact []].
  destruct (fake_for key r); simpl; [by rewrite last_snoc|by rewrite app_nil_r].
Qed.

Lemma last_fake_Some key rs r :
  last_fake key rs = Some r → r ∈ rs ∧ is_fake r = true ∧ key_of r = ret key.
Proof.
  intros [Hf ?]%last_Some_elem_of%list_elem_of_filter.
  split; [done|]. unfold fake_for in Hf.
  destruct (is_fake r); [|done]. split; [done|].
  destruct (key_of r) as [|k]; [done|]. simpl in Hf.
  by apply bool_decide_unpack in Hf as ->.
Qed.

(** After the loop, the entry of a key that has a Fake record is the last
    Fake record of that key, whatever else was merged. *)
Lemma forEach_last_fake rs m0 m key r :
  forEach merge_record rs m0 = ret m → last_fake key rs = Some r →
  m !! key = Some r.
Proof.
  revert m. induction rs as [|a rs IH] using rev_ind; intros m; [done|].
  rewrite forEach_snoc, last_fake_snoc.
  destruct (forEach merge_record rs m0) as [e|m1]; [done|]. simpl.
  intros Hm. destruct (fake_for key a) eqn:Ha.
  - intros [= <-].
    apply andb_prop in Ha as [Hf Hk].
    destruct (key_of a) as [|k] eqn:Hka; [done|]. apply bool_decide_eq_true in Hk as ->.
    rewrite (merge_record_fake _ _ _ Hka Hf) in Hm. injection Hm as <-.
    apply lookup_insert_eq.
  - intros Hr. pose proof (IH _ eq_refl Hr) as Hm1.
    apply last_fake_Some in Hr as (_ & Hfr & _).
    assert (key_of a = ret key ∨ key_of a ≠ ret key) as [Hka|Hka].
    { destruct (key_of a) as [e|k]; [by right|].
      destruct (decide (k = key)) as [->|]; [by left|right; unfold ret; congruence]. }
    + assert (is_fake a = false) as Hfa.
      { unfold fake_for in Ha. rewrite Hka in Ha. simpl in Ha.
        rewrite bool_decide_true in Ha by done. by rewrite andb_true_r in Ha. }
      rewrite (merge_record_keep _ _ _ _ Hka Hfa Hm1 (is_fake_truthy _ Hfr)) in Hm.
      by injection Hm as <-.
    + by rewrite (merge_record_other _ _ _ _ Hm Hka).
Qed.

(** The loop ends without an exception when every record has a key. *)
Lemma forEach_merge_total rs m0 :
  Forall (λ r, ∃ k, key_of r = ret k) rs →
  ∃ m, forEach merge_record rs m0 = ret m.
Proof.
  intros H. revert m0. induction H as [|r rs [k Hk] _ IH]; intros m0; simpl.
  - by exists m0.
  - rewrite merge_record_unfold, Hk. simpl. destruct (_ || _); simpl; apply IH.
Qed.

End MergeFacts.

Section PollFacts.

Implicit Types (data : value) (st : overlay).

(** A poll whose response passes the guard stores the merged map. *)
Lemma poll_merged data st rs m :
  truthy_property data "success" = true →
  get data "all_results" = ret (VArray rs) →
  merge_results rs = ret m →
  scanResults (poll (ret data) st) = m.
Proof.
  unfold truthy_property, poll, on_results. simpl.
  destruct (get data "success") as [|s]; [done|]. simpl.
  intros -> ->. simpl. by intros ->.
Qed.

(** A poll whose response fails the guard changes nothing. *)
Lemma poll_guard data st :
  truthy_property data "success" && truthy_property data "all_results" = false →
  poll (ret data) st = st.
Proof.
  unfold truthy_property, poll, on_results. simpl.
  destruct (get data "success") as [|s]; [done|]. simpl.
  destruct (truthy s); [|done]. simpl.
  destruct (get data "all_results") as [|a]; [done|]. simpl.
  by intros ->.
Qed.

Lemma status_of_fake st site key r :
  normalizeUrl (VString site) = ret key →
  scanResults st !! key = Some r → is_fake r = true →
  status_of st site = Threat.
Proof.
  intros Hk Hr Hf. unfold status_of. rewrite Hk. unfold ret. rewrite Hr. simpl.
  rewrite (is_fake_truthy _ Hf). by unfold is_fake in Hf; rewrite Hf.
Qed.

End PollFacts.

(** C1.  When the polled results set holds a Real record and, later, a Fake
    record filed under the same normalized key, the merged map that the poll
    stores has a Fake record under that key: the last Fake record of the key,
    which is the given one or a later one; every site with that key is
    rendered as a threat.  In the callback, a Fake record overwrites whatever
    is under its key, and another record leaves a record that is already
    there. *)
Theorem fake_verdict_wins :
  (∀ (data : value) (st : overlay) (pre mid post : list value)
     (real fake : value) (key : jsstring),
     let rs := pre ++ real :: mid ++ fake :: post in
     truthy_property data "success" = true →
     get data "all_results" = ret (VArray rs) →
     Forall (λ r, ∃ k, key_of r = ret k) rs →
     key_of real = ret key → is_real real = true →
     key_of fake = ret key → is_fake fake = true →
     ∃ r, scanResults (poll (ret data) st) !! key = Some r
          ∧ is_fake r = true
          ∧ r ∈ fake :: post
          ∧ last_fake key rs = Some r
          ∧ ∀ site, normalizeUrl (VString site) = ret key →
                    status_of (poll (ret data) st) site = Threat) ∧
  (∀ (m : gmap jsstring value) (r : value) (key : jsstring),
     key_of r = ret key → is_fake r = true →
     merge_record m r = ret (<[key := r]> m)) ∧
  (∀ (m : gmap jsstring value) (r : value) (key : jsstring) props,
     key_of r = ret key → is_fake r = false →
     m !! key = Some (VObject props) →
     merge_record m r = ret m).
Proof.
  split; [|split].
  - intros data st pre mid post real fake key rs Hs Ha Hwf Hkr Hr Hkf Hf.
    destruct (forEach_merge_total rs ∅ Hwf) as [m Hm].
    assert (∃ r, last_fake key rs = Some r ∧ r ∈ fake :: post) as (r & Hlast & Hin).
    { assert (fake_for key fake) as Hff.
      { unfold fake_for. rewrite Hf, Hkf. simpl. by rewrite bool_decide_true. }
      destruct (last_fake key (fake :: post)) as [r|] eqn:E.
      - exists r. split; [|by apply last_fake_Some in E as (? & _)].
        subst rs. change (real :: mid ++ fake :: post) with ((real :: mid) ++ fake :: post).
        rewrite app_assoc. unfold last_fake in *. by rewrite filter_app, last_app, E.
      - unfold last_fake in E. rewrite filter_cons_True in E by done.
        by apply last_None in E. }
    pose proof (forEach_last_fake _ _ _ _ _ Hm Hlast) as Hlook.
    pose proof (last_fake_Some _ _ _ Hlast) as (_ & Hfr & _).
    rewrite (poll_merged data st rs m Hs Ha Hm).
    exists r. repeat split; try done.
    intros site Hsite. eapply status_of_fake; [done| |done].
    by rewrite (poll_merged data st rs m Hs Ha Hm).
  - apply merge_record_fake.
  - intros m r key props Hk Hf Hm. by eapply merge_record_keep.
Qed.

Lemma fake_verdict_wins_witness :
  ∃ r, scanResults
         (poll (ret (results_document
                       [scan_record "https://a.com/" "Real" 97;
                        scan_record "http://www.a.com" "Fake" 88] 1 1))
               (initial [js "a.com"; js "b.com"]))
       !! js "a.com" = Some r
       ∧ is_fake r = true.
Proof.
  destruct fake_verdict_wins as [H _].
  destruct (H (results_document
                 [scan_record "https://a.com/" "Real" 97;
                  scan_record "http://www.a.com" "Fake" 88] 1 1)
              (initial [js "a.com"; js "b.com"])
              [] [] []
              (scan_record "https://a.com/" "Real" 97)
              (scan_record "http://www.a.com" "Fake" 88)
              (js "a.com"))
    as (r & Hr & Hf & _).
  - reflexivity.
  - reflexivity.
  - repeat constructor; eexists; reflexivity.
  - reflexivity.
  - reflexivity.
  - reflexivity.
  - reflexivity.
  - exists r. by split.
Defined.

(** C10.  A poll whose parsed body has no truthy [all_results] leaves the
    overlay as it was, and so does a response that cannot be parsed; the state
    changes only when [data.success] and [data.all_results] are both truthy.
    The empty default shape of the server, whose list is under [results], is
    such a body. *)
Theorem poll_without_all_results :
  (∀ (data : value) (st : overlay),
     truthy_property data "all_results" = false → poll (ret data) st = st) ∧
  (∀ (e : exn) (st : overlay), poll (throw e) st = st) ∧
  (∀ (data : value) (st : overlay),
     poll (ret data) st ≠ st →
     truthy_property data "success" = true ∧ truthy_property data "all_results" = true) ∧
  (∀ st : overlay,
     truthy_property empty_summary "all_results" = false ∧
     poll (ret empty_summary) st = st).
Proof.
  repeat split.
  - intros data st H. apply poll_guard. rewrite H. apply andb_false_r.
  - destruct (truthy_property data "success") eqn:E; [done|].
    exfalso. apply H, poll_guard. by rewrite E.
  - destruct (truthy_property data "all_results") eqn:E; [done|].
    exfalso. apply H, poll_guard. rewrite E. apply andb_false_r.
Qed.

Lemma poll_without_all_results_witness :
  poll (ret empty_summary) (initial [js "a.com"; js "b.com"])
  = initial [js "a.com"; js "b.com"].
Proof.
  destruct poll_without_all_results as [H _].
  apply (H empty_summary (initial [js "a.com"; js "b.com"])).
  reflexivity.
Defined.

(** C7.  With a non-empty website list the progress percentage is
    [stats.total / websites.length * 100] in double arithmetic, with no
    clamping; [stats.total] is the [total_scanned] of the last merged poll
    (0 when that is falsy).  After a poll that reports [total_scanned: 1] for
    the list [a.com, b.com] it is 50, and after one that reports 3 it is
    150. *)
Theorem progress_not_clamped :
  (∀ st : overlay,
     websites st ≠ [] →
     progressPercentage st
     = (ToNumber (total (stats st))
        / float_of_Z (Z.of_nat (length (websites st))) * 100)%float) ∧
  (∀ (sites : list jsstring) (rs : list value) (m : gmap jsstring value)
     (total_scanned deepfakes_found : float),
     sites ≠ [] → merge_results rs = ret m →
     truthy (VNumber total_scanned) = true →
     progressPercentage
       (poll (ret (results_document rs total_scanned deepfakes_found)) (initial sites))
     = (total_scanned / float_of_Z (Z.of_nat (length sites)) * 100)%float) ∧
  progressPercentage
    (poll (ret (results_document [] 1 0)) (initial [js "a.com"; js "b.com"]))
  = 50%float ∧
  progressPercentage
    (poll (ret (results_document [] 3 0)) (initial [js "a.com"; js "b.com"]))
  = 150%float.
Proof.
  assert (H : ∀ st : overlay, websites st ≠ [] →
     progressPercentage st
     = (ToNumber (total (stats st))
        / float_of_Z (Z.of_nat (length (websites st))) * 100)%float).
  { intros st Hw. unfold progressPercentage.
    rewrite bool_decide_true; [done|]. destruct (websites st); [done|simpl; lia]. }
  split; [exact H|split; [|split; reflexivity]].
  intros sites rs m t f Hs Hm Ht.
  assert (poll (ret (results_document rs t f)) (initial sites)
          = {| websites := sites; loading := false; error := None; scanResults := m;
               stats := {| total := or_else (VNumber t) (VNumber 0);
                           found := or_else (VNumber f) (VNumber 0) |} |}) as ->.
  { assert (get (results_document rs t f) "success" = ret (VBool true)) as Hsucc
      by reflexivity.
    assert (get (results_document rs t f) "all_results" = ret (VArray rs)) as Hall
      by reflexivity.
    assert (get_opt (results_document rs t f) "summary"
            = VObject [(js "total_scanned", VNumber t);
                       (js "deepfakes_found", VNumber f)]) as Hsum
      by reflexivity.
    unfold poll, bind, ret in *. cbv beta iota. unfold on_results, bind.
    rewrite Hsucc. cbv beta iota. rewrite Hall. cbv beta iota. simpl truthy.
    cbv iota. rewrite Hm, Hsum. reflexivity. }
  rewrite H by done. unfold or_else. by rewrite Ht.
Qed.

Lemma progress_not_clamped_witness :
  progressPercentage
    (poll (ret (results_document [scan_record "a.com" "Real" 99] 1 0))
          (initial [js "a.com"; js "b.com"]))
  = (1 / float_of_Z 2 * 100)%float.
Proof.
  destruct progress_not_clamped as (_ & H & _).
  apply (H [js "a.com"; js "b.com"] [scan_record "a.com" "Real" 99]
           {[ js "a.com" := scan_record "a.com" "Real" 99 ]} 1%float 0%float).
  - discriminate.
  - reflexivity.
  - reflexivity.
Defined.

(** ** Server: POST /api/v1/analyze *)

(** A zero is neither [NaN] nor an infinity. *)
Lemma zero_is_finite (x : float) :
  is_zero x = true → is_nan x || is_infinity x = false.
Proof.
  unfold is_zero, is_nan, is_infinity.
  rewrite !FloatAxioms.eqb_spec, abs_spec.
  by destruct (Prim2SF x) as [s| s| |s m e]; try destruct s.
Qed.

(** C3, as the code has it.  When the process exits with code 0 and both
    patterns match its output, the response is a success whose label is the
    trimmed first group, whose [isFake] tells whether that label contains
    [Fake], and whose confidence is what [parseFloat] reads in the second
    group, as JSON carries it: the number itself when it is finite (a
    negative zero as 0), [null] when it is [NaN] or an infinity.  The handler
    does not restrict the number. *)
Theorem analyze_success_verdict (now : N) (image : file_part)
    (stdout stderr : list jsstring) (classMatch1 confMatch1 : jsstring) :
  match_class (concat stdout) = Some classMatch1 →
  match_conf (concat stdout) = Some confMatch1 →
  response_of (post_analyze now [{| fieldname := js "image"; file := image |}]
                            (Closes stdout stderr (Some 0%Z)))
  = Some {| status := 200;
            body := verdict_sent (trim classMatch1)
                                 (sent_number (parseFloat confMatch1))
                                 (includes (js "Fake") (trim classMatch1)) |}
  ∧ (is_nan (parseFloat confMatch1) || is_infinity (parseFloat confMatch1) = true →
     sent_number (parseFloat confMatch1) = VNull)
  ∧ (is_nan (parseFloat confMatch1) || is_infinity (parseFloat confMatch1) = false →
     is_zero (parseFloat confMatch1) = false →
     sent_number (parseFloat confMatch1) = VNumber (parseFloat confMatch1))
  ∧ (is_zero (parseFloat confMatch1) = true →
     sent_number (parseFloat confMatch1) = VNumber 0).
Proof.
  intros Hc Hf. split; [|split; [|split]].
  - unfold post_analyze, upload_single_image.
    rewrite bool_decide_true by done.
    cbn [upload_single app response_of analyze]. unfold on_close.
    rewrite bool_decide_true by done. cbn [negb]. rewrite Hc, Hf.
    rewrite includes_Fake_trim. reflexivity.
  - unfold sent_number. by intros ->.
  - unfold sent_number. by intros -> ->.
  - unfold sent_number. intros Hz. by rewrite (zero_is_finite _ Hz), Hz.
Qed.

Lemma analyze_success_verdict_witness :
  response_of (post_analyze 1700000000000 [image_part "face.png"]
                            (Closes [stdout_150] [] (Some 0%Z)))
  = Some {| status := 200; body := verdict_sent (js "Fake") (VNumber 150) true |}.
Proof.
  destruct (analyze_success_verdict 1700000000000 {| originalname := js "face.png" |}
              [stdout_150] [] (js "Fake") (js "150")) as [H _].
  - reflexivity.
  - reflexivity.
  - exact H.
Defined.

(** C3 as stated fails: an output in the expected format with the line
    [[Confidence] 150%] and exit code 0 gets a success response whose
    confidence is 150. *)
Lemma analyze_confidence_above_100 :
  match_class stdout_150 = Some (js "Fake") ∧
  match_conf stdout_150 = Some (js "150") ∧
  response_of (post_analyze 1700000000000 [image_part "face.png"]
                            (Closes [stdout_150] [] (Some 0%Z)))
  = Some {| status := 200; body := verdict (js "Fake") 150 true |} ∧
  confidence_in_range 150 = false.
Proof. repeat split. Qed.

(** C9, as the code has it.  A request that carries no file at all is
    answered 400 with [{success: false, error: 'No image file uploaded'}];
    a request whose first file is under another field than [image] is ended
    by the upload middleware, which passes an unexpected-file error on, and is
    answered with the error page, status 500, without the handler running.
    In both cases nothing is written and no process is started. *)
Theorem analyze_without_file (now : N) (run : child_run) :
  (post_analyze now [] run
   = [respond {| status := 400;
                 body := VObject [(js "success", VBool false);
                                  (js "error", VString (js "No image file uploaded"))] |}]
   ∧ answer_of (post_analyze now [] run)
     = Some (Json {| status := 400;
                     body := VObject [(js "success", VBool false);
                                      (js "error", VString (js "No image file uploaded"))] |})
   ∧ existsb is_spawn (post_analyze now [] run) = false
   ∧ existsb is_write (post_analyze now [] run) = false)
  ∧ ∀ (p : uploaded_part) (rest : list uploaded_part),
      fieldname p ≠ js "image" →
      post_analyze now (p :: rest) run = [next_error "LIMIT_UNEXPECTED_FILE"]
      ∧ answer_of (post_analyze now (p :: rest) run) = Some (ErrorPage 500)
      ∧ existsb is_spawn (post_analyze now (p :: rest) run) = false
      ∧ existsb is_write (post_analyze now (p :: rest) run) = false.
Proof.
  split; [done|]. intros p rest Hp.
  unfold post_analyze, upload_single_image. by rewrite bool_decide_false.
Qed.

Lemma analyze_without_file_witness :
  answer_of (post_analyze 1700000000000
               [{| fieldname := js "photo"; file := {| originalname := js "face.png" |} |}]
               NeverCloses)
  = Some (ErrorPage 500).
Proof.
  destruct (analyze_without_file 1700000000000 NeverCloses) as [_ H].
  apply (H {| fieldname := js "photo"; file := {| originalname := js "face.png" |} |} []).
  discriminate.
Defined.

(** C9 as stated fails: a request with no file in the [image] field but a
    file in the field [photo] is not answered 400 with the JSON error; it gets
    the error page with status 500. *)
Lemma analyze_file_in_other_field :
  answer_of (post_analyze 1700000000000
               [{| fieldname := js "photo"; file := {| originalname := js "face.png" |} |}]
               NeverCloses)
  = Some (ErrorPage 500)
  ∧ answer_of (post_analyze 1700000000000
                 [{| fieldname := js "photo"; file := {| originalname := js "face.png" |} |}]
                 NeverCloses)
    ≠ Some (Json {| status := 400; body := failure "No image file uploaded" |}).
Proof. split; [reflexivity|discriminate]. Qed.

(** ** Server: POST /api/v1/global-scan *)

(** C8, as the code has it.  The handler logs the start, spawns the
    detached process, drops its reference and answers
    [{success: true, message}] with status 200, in that order and whether the
    process starts or not: a failure to start sends no response and changes
    none.  The handler neither logs nor handles the failure; it reaches the
    server after the response, as an [error] event of the child that has no
    listener. *)
Theorem global_scan_acknowledged (outcome : spawn_outcome) :
  response_of (post_global_scan outcome)
  = Some {| status := 200;
            body := VObject [(js "success", VBool true);
                             (js "message",
                              VString (js "Global deepfake scan initiated in background."))] |}
  ∧ ∃ later,
      post_global_scan outcome
      = [console_log (js "[Global Scan] Initiating scan using ../ml_service/deepfake_scanner.py");
         spawn (js "python") [js "../ml_service/deepfake_scanner.py"] true;
         unref;
         respond {| status := 200;
                    body := VObject [(js "success", VBool true);
                                     (js "message",
                                      VString (js "Global deepfake scan initiated in background."))] |}]
        ++ later
      ∧ later = match outcome with
                | Started => []
                | StartFailed errno => [unhandled_error_event errno]
                end
      ∧ existsb is_respond later = false
      ∧ existsb is_console_error (post_global_scan outcome) = false
      ∧ filter is_respond (post_global_scan outcome)
        = filter is_respond (post_global_scan Started).
Proof.
  split; [by destruct outcome|].
  destruct outcome as [|errno]; eexists; (split; [reflexivity|]); done.
Qed.

(** C8 as stated fails in its last clause: a failed start is not logged and
    left at that.  Nothing of the handler logs it, and the [error] event of
    the child, which has no listener, ends the server process after the
    response has been sent. *)
Lemma global_scan_failed_start_not_logged :
  response_of (post_global_scan (StartFailed "ENOENT"))
  = response_of (post_global_scan Started)
  ∧ existsb is_console_error (post_global_scan (StartFailed "ENOENT")) = false
  ∧ server_survives (post_global_scan (StartFailed "ENOENT")) = false
  ∧ server_survives (post_global_scan Started) = true.
Proof. repeat split. Qed.

(** ** Server: GET /api/v1/scan-results and GET /api/v1/websites *)

(** C6.  When the results file does not exist the answer is
    [{success: true, results: [], summary: {total_scanned: 0}}] with status
    200, whatever a read would have given. *)
Theorem scan_results_absent (parse : jsstring → result value) (read : result jsstring) :
  get_scan_results parse false read
  = [respond {| status := 200;
                body := VObject [(js "success", VBool true);
                                 (js "results", VArray []);
                                 (js "summary",
                                  VObject [(js "total_scanned", VNumber 0)])] |}]
  ∧ response_of (get_scan_results parse false read)
    = Some {| status := 200; body := empty_summary |}.
Proof. done. Qed.

(** C4.  When the results file exists and is read but [JSON.parse] rejects
    its contents, the answer is the empty-summary shape with status 200 and
    nothing else happens; the empty document is such a content. *)
Theorem scan_results_unparsable :
  (∀ (parse : jsstring → result value) (data : jsstring) (e : exn),
     parse data = throw e →
     get_scan_results parse true (ret data) = [res_json empty_summary]
     ∧ response_of (get_scan_results parse true (ret data))
       = Some {| status := 200; body := empty_summary |}) ∧
  (∃ e, JSON_parse [] = throw e) ∧
  response_of (get_scan_results JSON_parse true (ret []))
  = Some {| status := 200; body := empty_summary |}.
Proof.
  split; [|split; [by eexists|done]].
  intros parse data e H. unfold get_scan_results. simpl. by rewrite H.
Qed.

Lemma scan_results_unparsable_witness :
  response_of (get_scan_results JSON_parse true (ret (js "{")))
  = Some {| status := 200; body := empty_summary |}.
Proof.
  destruct scan_results_unparsable as [H _].
  apply (H JSON_parse (js "{")
           (SyntaxError "Unexpected token or end of JSON input")).
  reflexivity.
Defined.

(** C5, as the code has it.  A failed read of the results file is answered
    with status 500 and [{success: false, error: 'Failed to load results'}],
    after the error is logged, just as a failed read of the website list is
    answered with 500 and [{success: false, error: 'Failed to load website
    list'}]. *)
Theorem read_errors_are_500 (parse : jsstring → result value) (err : exn) :
  get_scan_results parse true (throw err)
  = [console_error "Error reading results:" (Error err);
     respond {| status := 500;
                body := VObject [(js "success", VBool false);
                                 (js "error", VString (js "Failed to load results"))] |}]
  ∧ response_of (get_scan_results parse true (throw err))
    = Some {| status := 500; body := failure "Failed to load results" |}
  ∧ response_of (get_websites (throw err))
    = Some {| status := 500; body := failure "Failed to load website list" |}.
Proof. done. Qed.

(** C5 as stated fails: with the results file present and a read that ends in
    an I/O error, the endpoint answers 500, not the empty success shape. *)
Lemma scan_results_read_error_not_downgraded :
  response_of (get_scan_results JSON_parse true
                 (throw (IOError "EACCES: permission denied")))
  = Some {| status := 500; body := failure "Failed to load results" |}
  ∧ response_of (get_scan_results JSON_parse true
                   (throw (IOError "EACCES: permission denied")))
    ≠ Some {| status := 200; body := empty_summary |}.
Proof. split; [reflexivity|discriminate]. Qed.

(** * Further properties of the client *)

Section MergeCharacterisation.

Implicit Types (m : gmap jsstring value) (r : value) (rs : list value)
  (key : jsstring).

Lemma well_formed_object r : well_formed r = true → truthy r = true.
Proof. by destruct r. Qed.

Lemma well_formed_key r : well_formed r = true → ∃ k, key_of r = ret k.
Proof.
  intros [_ H]%andb_prop. destruct (key_of r) as [|k]; [done|by exists k].
Qed.

Lemma filed_under_key key r : filed_under key r = true ↔ key_of r = ret key.
Proof.
  unfold filed_under, ret. destruct (key_of r) as [e|k]; [done|].
  rewrite bool_decide_eq_true. split; congruence.
Qed.

Lemma fake_for_split key r : fake_for key r = is_fake r && filed_under key r.
Proof. done. Qed.

Lemma first_filed_snoc key rs r :
  first_filed key (rs ++ [r])
  = match first_filed key rs with
    | Some x => Some x
    | None => if filed_under key r then Some r else None
    end.
Proof.
  unfold first_filed. rewrite filter_app, filter_singleton; [|exact []].
  destruct (filter _ rs); [|done]. by destruct (filed_under key r).
Qed.

Lemma first_filed_Some key rs r :
  first_filed key rs = Some r → r ∈ rs ∧ filed_under key r = true.
Proof.
  unfold first_filed. intros H.
  assert (r ∈ filter (λ r, filed_under key r) rs) as [Hf ?]%list_elem_of_filter.
  { destruct (filter _ rs); [done|]. injection H as ->. by left. }
  split; [done|]. by destruct (filed_under key r).
Qed.

Lemma merged_entry_elem key rs r : merged_entry key rs = Some r → r ∈ rs.
Proof.
  unfold merged_entry. destruct (last_fake key rs) as [x|] eqn:E.
  - intros [= <-]. by apply last_fake_Some in E as (? & _).
  - by intros (? & _)%first_filed_Some.
Qed.

(** The loop over well-formed records, entry by entry. *)
Lemma forEach_merged_entry rs m key :
  Forall (λ r, well_formed r = true) rs →
  forEach merge_record rs ∅ = ret m →
  m !! key = merged_entry key rs.
Proof.
  revert m. induction rs as [|a rs IH] using rev_ind; intros m Hwf.
  { by intros [= <-]. }
  apply Forall_app in Hwf as [Hrs [Ha _]%Forall_cons].
  rewrite forEach_snoc.
  destruct (forEach merge_record rs ∅) as [e|m1]; [done|]. simpl.
  specialize (IH m1 Hrs eq_refl). intros Hm.
  assert (∀ x, m1 !! key = Some x → truthy x = true) as Htruthy.
  { intros x Hx. rewrite IH in Hx. apply merged_entry_elem in Hx.
    apply well_formed_object. by rewrite Forall_forall in Hrs; apply Hrs. }
  unfold merged_entry in *. rewrite last_fake_snoc, first_filed_snoc, fake_for_split.
  destruct (well_formed_key _ Ha) as [k Hk].
  destruct (filed_under key a) eqn:Hfa.
  - apply filed_under_key in Hfa. rewrite Hk in Hfa. injection Hfa as ->.
    destruct (is_fake a) eqn:Hfake; simpl.
    + rewrite (merge_record_fake _ _ _ Hk Hfake) in Hm. injection Hm as <-.
      apply lookup_insert_eq.
    + destruct (m1 !! key) as [x|] eqn:Hx.
      * rewrite (merge_record_keep _ _ _ _ Hk Hfake Hx (Htruthy _ eq_refl)) in Hm.
        injection Hm as <-. rewrite Hx, IH.
        destruct (last_fake key rs); [done|]. by destruct (first_filed key rs).
      * rewrite merge_record_unfold, Hk, Hfake in Hm. simpl in Hm. rewrite Hx in Hm.
        injection Hm as <-. rewrite lookup_insert_eq.
        symmetry in IH. destruct (last_fake key rs); [done|]. by rewrite IH.
  - rewrite andb_false_r.
    assert (key_of a ≠ ret key) as Hne by (by intros ?%filed_under_key; congruence).
    rewrite (merge_record_other _ _ _ _ Hm Hne), IH.
    destruct (last_fake key rs); [done|]. by destruct (first_filed key rs).
Qed.

Lemma last_fake_None key rs :
  last_fake key rs = None ↔ existsb (fake_for key) rs = false.
Proof.
  unfold last_fake. rewrite last_None. induction rs as [|a rs IH]; [done|].
  simpl. rewrite filter_cons. destruct (fake_for key a); simpl; [|done].
  split; done.
Qed.

Lemma first_filed_None key rs :
  first_filed key rs = None ↔ existsb (filed_under key) rs = false.
Proof.
  unfold first_filed. induction rs as [|a rs IH]; [done|].
  simpl. rewrite filter_cons. destruct (filed_under key a); simpl; [|done].
  split; done.
Qed.

End MergeCharacterisation.

(** X1.  For a results set of well-formed records, none of them filed under
    the name of a member of [Object.prototype], the loop ends without an
    exception, and the entry it leaves under a key that is no such name is the
    last Fake record of that key, or, when the key has no Fake record, the
    first record of the key (later records that are not Fake are ignored); such
    a key with no record has no entry. *)
Theorem merge_results_entries (rs : list value) :
  Forall (λ r, well_formed r = true) rs →
  Forall (λ r, plainly_filed r = true) rs →
  ∃ m, merge_results rs = ret m
       ∧ ∀ key, plain_key key = true → m !! key = merged_entry key rs.
Proof.
  intros Hwf _.
  destruct (forEach_merge_total rs ∅) as [m Hm].
  { eapply Forall_impl; [exact Hwf|]. intros r. apply well_formed_key. }
  exists m. split; [done|]. intros key _. by apply forEach_merged_entry.
Qed.

Lemma merge_results_entries_witness :
  ∃ m, merge_results [scan_record "https://a.com/" "Real" 97;
                      scan_record "a.com" "Real" 12;
                      scan_record "b.com" "Fake" 88]
       = ret m
       ∧ ∀ key, plain_key key = true →
                m !! key
                = merged_entry key [scan_record "https://a.com/" "Real" 97;
                                    scan_record "a.com" "Real" 12;
                                    scan_record "b.com" "Fake" 88].
Proof.
  apply (merge_results_entries
           [scan_record "https://a.com/" "Real" 97;
            scan_record "a.com" "Real" 12;
            scan_record "b.com" "Fake" 88]).
  - repeat constructor.
  - repeat constructor.
Defined.

Section StatusFacts.

Implicit Types (rs : list value) (key : jsstring) (st : overlay).

(** What the rendering makes of the entry under the site's key. *)
Lemma status_of_entry st site :
  status_of st site
  = match scanResults st !! site_key site with
    | Some r => if truthy r then (if is_fake r then Threat else Safe) else Scanning
    | None => Scanning
    end.
Proof.
  unfold status_of. rewrite normalizeUrl_string. unfold ret.
  change (strip_scheme (strip_trailing_slash site)) with (site_key site).
  by destruct (scanResults st !! site_key site).
Qed.

(** The entry of a key in terms of the records that have the key. *)
Lemma merged_entry_cases rs key :
  Forall (λ r, well_formed r = true) rs →
  match merged_entry key rs with
  | Some r => if truthy r then (if is_fake r then Threat else Safe) else Scanning
  | None => Scanning
  end
  = if existsb (fake_for key) rs then Threat
    else if existsb (filed_under key) rs then Safe
    else Scanning.
Proof.
  intros Hwf. unfold merged_entry.
  destruct (last_fake key rs) as [r|] eqn:Hl.
  - destruct (existsb (fake_for key) rs) eqn:E.
    + apply last_fake_Some in Hl as (_ & Hf & _).
      by rewrite (is_fake_truthy _ Hf), Hf.
    + apply last_fake_None in E. congruence.
  - pose proof Hl as Hl'. apply last_fake_None in Hl' as ->.
    destruct (first_filed key rs) as [r|] eqn:Hf.
    + destruct (existsb (filed_under key) rs) eqn:E;
        [|apply first_filed_None in E; congruence].
      apply first_filed_Some in Hf as [Hin Hfiled].
      rewrite Forall_forall in Hwf. rewrite (well_formed_object _ (Hwf _ Hin)).
      assert (fake_for key r = false) as Hnf.
      { apply last_fake_None in Hl. apply not_true_is_false. intros Hff.
        assert (existsb (fake_for key) rs = true); [|congruence].
        apply existsb_exists. exists r. by rewrite <- list_elem_of_In. }
      rewrite fake_for_split, Hfiled, andb_true_r in Hnf. by rewrite Hnf.
    + by apply first_filed_None in Hf as ->.
Qed.

(** The map a poll stores, for well-formed records. *)
Lemma poll_stores_merged_entries (data : value) st rs key :
  truthy_property data "success" = true →
  get data "all_results" = ret (VArray rs) →
  Forall (λ r, well_formed r = true) rs →
  scanResults (poll (ret data) st) !! key = merged_entry key rs.
Proof.
  intros Hs Ha Hwf.
  destruct (forEach_merge_total rs ∅) as [m Hm].
  { eapply Forall_impl; [exact Hwf|]. intros r. apply well_formed_key. }
  rewrite (poll_merged data st rs m Hs Ha Hm). by apply forEach_merged_entry.
Qed.

End StatusFacts.

(** X2.  What a site shows after a poll that passes the guard, for a results
    set of well-formed records, when neither the key of the site nor the key of
    any record is the name of a member of [Object.prototype]: a threat when
    some Fake record has the site's key, safe when the key has records but no
    Fake one, scanning when no record has the key. *)
Theorem status_after_poll (data : value) (st : overlay) (rs : list value)
    (site : jsstring) :
  truthy_property data "success" = true →
  get data "all_results" = ret (VArray rs) →
  Forall (λ r, well_formed r = true) rs →
  Forall (λ r, plainly_filed r = true) rs →
  plain_key (site_key site) = true →
  status_of (poll (ret data) st) site
  = if existsb (fake_for (site_key site)) rs then Threat
    else if existsb (filed_under (site_key site)) rs then Safe
    else Scanning.
Proof.
  intros Hs Ha Hwf _ _.
  rewrite status_of_entry, (poll_stores_merged_entries data st rs _ Hs Ha Hwf).
  by apply merged_entry_cases.
Qed.

Lemma status_after_poll_witness :
  status_of (poll (ret (results_document
                          [scan_record "https://a.com/" "Real" 97;
                           scan_record "http://www.a.com" "Fake" 88] 1 1))
                  (initial [js "a.com"; js "b.com"]))
            (js "b.com")
  = Scanning.
Proof.
  apply (status_after_poll
           (results_document
              [scan_record "https://a.com/" "Real" 97;
               scan_record "http://www.a.com" "Fake" 88] 1 1)
           (initial [js "a.com"; js "b.com"])
           [scan_record "https://a.com/" "Real" 97;
            scan_record "http://www.a.com" "Fake" 88]
           (js "b.com")).
  - reflexivity.
  - reflexivity.
  - repeat constructor.
  - repeat constructor.
  - reflexivity.
Defined.

Section PollComposition.

Implicit Types (data : value) (st : overlay).

(** The state a poll that takes effect leaves. *)
Lemma poll_takes_effect data st rs m :
  truthy_property data "success" = true →
  get data "all_results" = ret (VArray rs) →
  merge_results rs = ret m →
  poll (ret data) st
  = {| websites := websites st; loading := loading st; error := error st;
       scanResults := m;
       stats := {| total := or_else (get_opt (get_opt data "summary") "total_scanned")
                                    (VNumber 0);
                   found := or_else (get_opt (get_opt data "summary") "deepfakes_found")
                                    (VNumber 0) |} |}.
Proof.
  unfold truthy_property, poll, on_results. simpl.
  destruct (get data "success") as [|s]; [done|]. simpl.
  intros -> ->. simpl. by intros ->.
Qed.

Lemma poll_frame (response : result value) st :
  websites (poll response st) = websites st
  ∧ loading (poll response st) = loading st
  ∧ error (poll response st) = error st.
Proof.
  unfold poll, on_results. destruct response as [e|data]; simpl; [done|].
  destruct (get data "success") as [|s]; simpl; [done|].
  destruct (truthy s); [|done].
  destruct (get data "all_results") as [|a]; simpl; [done|].
  destruct (truthy a); [|done].
  destruct a; try done. simpl. by destruct (merge_results elems).
Qed.

Lemma forEach_app {A S} (f : S → A → result S) (l1 l2 : list A) (acc : S) :
  forEach f (l1 ++ l2) acc = do acc' <- forEach f l1 acc; forEach f l2 acc'.
Proof.
  revert acc. induction l1 as [|a l1 IH]; intros acc; simpl; [done|].
  destruct (f acc a); simpl; [done|apply IH].
Qed.

End PollComposition.

(** X3.  Polls do not accumulate: a poll that takes effect replaces the
    merged map and the statistics as a whole, so after two polls the state is
    what the second one alone would have left; whatever an earlier poll had
    found and the later document does not hold is gone. *)
Theorem poll_replaces (first : result value) (data : value) (st : overlay)
    (rs : list value) (m : gmap jsstring value) :
  truthy_property data "success" = true →
  get data "all_results" = ret (VArray rs) →
  merge_results rs = ret m →
  poll (ret data) (poll first st) = poll (ret data) st
  ∧ scanResults (poll (ret data) (poll first st)) = m.
Proof.
  intros Hs Ha Hm.
  rewrite !(poll_takes_effect data _ rs m Hs Ha Hm).
  by destruct (poll_frame first st) as (-> & -> & ->).
Qed.

Lemma poll_replaces_witness :
  poll (ret (results_document [] 2 0))
       (poll (ret (results_document [scan_record "a.com" "Fake" 88] 1 1))
             (initial [js "a.com"; js "b.com"]))
  = poll (ret (results_document [] 2 0)) (initial [js "a.com"; js "b.com"])
  ∧ scanResults
      (poll (ret (results_document [] 2 0))
            (poll (ret (results_document [scan_record "a.com" "Fake" 88] 1 1))
                  (initial [js "a.com"; js "b.com"])))
    = ∅.
Proof.
  apply (poll_replaces (ret (results_document [scan_record "a.com" "Fake" 88] 1 1))
                       (results_document [] 2 0)
                       (initial [js "a.com"; js "b.com"]) [] ∅); reflexivity.
Defined.

(** X4.  One element that cannot be filed discards the whole poll: when an
    element of [all_results] is [null], or has a [source_url] that is neither
    falsy nor a string, the callback throws there and the overlay keeps its
    previous map and statistics, whatever the other records are. *)
Theorem poll_discarded_by_bad_record (data : value) (st : overlay)
    (pre post : list value) (bad : value) (e : exn) :
  truthy_property data "success" = true →
  get data "all_results" = ret (VArray (pre ++ bad :: post)) →
  Forall (λ r, ∃ k, key_of r = ret k) pre →
  key_of bad = throw e →
  poll (ret data) st = st.
Proof.
  intros Hs Ha Hpre Hbad.
  destruct (forEach_merge_total pre ∅ Hpre) as [m1 Hm1].
  assert (merge_results (pre ++ bad :: post) = throw e) as Hm.
  { unfold merge_results. rewrite forEach_app, Hm1. simpl.
    by rewrite merge_record_unfold, Hbad. }
  unfold truthy_property, poll, on_results in *. simpl.
  destruct (get data "success") as [|s]; [done|]. simpl.
  rewrite Hs, Ha. simpl. by rewrite Hm.
Qed.

Lemma poll_discarded_by_bad_record_witness :
  poll (ret (results_document [scan_record "a.com" "Fake" 88; VNull] 2 1))
       (initial [js "a.com"; js "b.com"])
  = initial [js "a.com"; js "b.com"].
Proof.
  apply (poll_discarded_by_bad_record
           (results_document [scan_record "a.com" "Fake" 88; VNull] 2 1)
           (initial [js "a.com"; js "b.com"])
           [scan_record "a.com" "Fake" 88] [] VNull
           (TypeError "Cannot read properties of null or undefined")).
  - reflexivity.
  - reflexivity.
  - repeat constructor. eexists. reflexivity.
  - reflexivity.
Defined.

(** X5.  A truthy [all_results] that is not an array (an object, a
    non-empty string, a number, [true]) has no [forEach]: the poll changes
    nothing. *)
Theorem poll_discarded_by_non_array (data : value) (st : overlay) (a : value) :
  get data "all_results" = ret a →
  (∀ rs, a ≠ VArray rs) →
  poll (ret data) st = st.
Proof.
  intros Ha Hna. unfold poll, on_results. simpl.
  destruct (get data "success") as [|s]; [done|]. simpl.
  destruct (truthy s); [|done]. rewrite Ha. simpl.
  destruct (truthy a); [|done]. destruct a; try done. by destruct (Hna elems).
Qed.

Lemma poll_discarded_by_non_array_witness :
  poll (ret (VObject [(js "success", VBool true);
                      (js "all_results", VObject [(js "a.com", VString (js "Fake"))])]))
       (initial [js "a.com"])
  = initial [js "a.com"].
Proof.
  apply (poll_discarded_by_non_array _ _ (VObject [(js "a.com", VString (js "Fake"))])).
  - reflexivity.
  - discriminate.
Defined.

(** * Further properties of the server *)

Section ScanFacts.

Implicit Types (s t g : jsstring) (f : N → bool).

Lemma take_drop_while f s : s = take_while f s ++ drop_while f s.
Proof. induction s as [|c s IH]; simpl; [done|]. destruct (f c); simpl; congruence. Qed.

Lemma take_while_Forall f s : Forall (λ c, f c = true) (take_while f s).
Proof.
  induction s as [|c s IH]; simpl; [constructor|].
  destruct (f c) eqn:E; by constructor.
Qed.

Lemma drop_while_head f s :
  match drop_while f s with [] => True | c :: _ => f c = false end.
Proof. induction s as [|c s IH]; simpl; [done|]. by destruct (f c) eqn:E. Qed.

Lemma drop_while_id f s :
  match s with [] => True | c :: _ => f c = false end → drop_while f s = s.
Proof. destruct s as [|c s]; simpl; [done|]. by intros ->. Qed.

Lemma take_while_app f s c t :
  Forall (λ c, f c = true) s → f c = false → take_while f (s ++ c :: t) = s.
Proof. intros Hs Hc. induction Hs as [|d s Hd _ IH]; simpl; [by rewrite Hc|]. by rewrite Hd, IH. Qed.

Lemma take_while_all f s : Forall (λ c, f c = true) s → take_while f s = s.
Proof. intros Hs. induction Hs as [|d s Hd _ IH]; simpl; [done|]. by rewrite Hd, IH. Qed.

(** The first group of the class pattern, when it matches: a non-empty
    text with no line terminator that follows the literal and runs to the end
    of its line. *)
Lemma match_class_sound s g :
  match_class s = Some g →
  g ≠ [] ∧ Forall (λ c, is_line_terminator c = false) g ∧
  ∃ a b, s = a ++ js "[Result] Class: " ++ g ++ b
         ∧ match b with [] => True | c :: _ => is_line_terminator c = true end.
Proof.
  induction s as [|c s IH]; [done|].
  assert (match_class s = Some g →
          g ≠ [] ∧ Forall (λ c, is_line_terminator c = false) g ∧
          ∃ a b, c :: s = a ++ js "[Result] Class: " ++ g ++ b
                 ∧ match b with [] => True | c :: _ => is_line_terminator c = true end)
    as Hnext.
  { intros (Hg & Hdot & a & b & -> & Hb)%IH. split; [done|]. split; [done|].
    by exists (c :: a), b. }
  cbn [match_class].
  destruct (strip_prefix (js "[Result] Class: ") (c :: s)) as [rest|] eqn:Hp; [|done].
  destruct (take_while is_dot rest) as [|d g'] eqn:Ht; [done|].
  intros [= <-]. split; [done|]. split.
  - rewrite <- Ht. eapply Forall_impl; [apply take_while_Forall|].
    intros x. unfold is_dot. by destruct (is_line_terminator x).
  - exists [], (drop_while is_dot rest). split.
    + apply strip_prefix_Some in Hp. rewrite Hp.
      pose proof (take_drop_while is_dot rest) as Hr. rewrite Ht in Hr.
      exact (f_equal (app (js "[Result] Class: ")) Hr).
    + pose proof (drop_while_head is_dot rest) as H.
      destruct (drop_while is_dot rest) as [|x ?]; [done|].
      unfold is_dot in H. by destruct (is_line_terminator x).
Qed.

Lemma before_last_percent_None s :
  before_last_percent s = None → Forall (λ c, c ≠ chr "%") s.
Proof.
  induction s as [|c s IH]; [constructor|]. cbn [before_last_percent].
  destruct (before_last_percent s); [done|].
  destruct (N.eqb_spec c (chr "%")); [done|]. intros _. by constructor; [|apply IH].
Qed.

Lemma before_last_percent_Some s g :
  before_last_percent s = Some g →
  ∃ t, s = g ++ chr "%" :: t ∧ Forall (λ c, c ≠ chr "%") t.
Proof.
  revert g. induction s as [|c s IH]; intros g; [done|]. cbn [before_last_percent].
  destruct (before_last_percent s) as [g'|] eqn:E.
  - intros [= <-]. destruct (IH g' eq_refl) as (t & -> & Ht). by exists t.
  - destruct (N.eqb_spec c (chr "%")) as [->|]; [|done].
    intros [= <-]. exists s. split; [done|]. by apply before_last_percent_None.
Qed.

Lemma before_last_percent_snoc g :
  Forall (λ c, c ≠ chr "%") g → before_last_percent (g ++ [chr "%"]) = Some g.
Proof.
  intros Hg. induction Hg as [|c g Hc _ IH]; [done|].
  cbn [app before_last_percent]. by rewrite IH.
Qed.

End ScanFacts.

(** X6.  What the two patterns of the analyze handler capture.  The class
    group is a non-empty text without line terminators that follows
    [[Result] Class: ] and runs to the end of its line; the confidence group is
    a non-empty text without line terminators that follows [[Confidence] ] and
    ends before the last [%] of its line. *)
Theorem analyze_patterns_sound (s g : jsstring) :
  (match_class s = Some g →
   g ≠ [] ∧ Forall (λ c, is_line_terminator c = false) g ∧
   ∃ a b, s = a ++ js "[Result] Class: " ++ g ++ b
          ∧ match b with [] => True | c :: _ => is_line_terminator c = true end) ∧
  (match_conf s = Some g →
   g ≠ [] ∧ Forall (λ c, is_line_terminator c = false) g ∧
   ∃ a t b, s = a ++ js "[Confidence] " ++ g ++ chr "%" :: t ++ b
            ∧ Forall (λ c, c ≠ chr "%" ∧ is_line_terminator c = false) t
            ∧ match b with [] => True | c :: _ => is_line_terminator c = true end).
Proof.
  split; [apply match_class_sound|].
  induction s as [|c s IH]; [done|].
  assert (match_conf s = Some g →
          g ≠ [] ∧ Forall (λ c, is_line_terminator c = false) g ∧
          ∃ a t b, c :: s = a ++ js "[Confidence] " ++ g ++ chr "%" :: t ++ b
                   ∧ Forall (λ c, c ≠ chr "%" ∧ is_line_terminator c = false) t
                   ∧ match b with [] => True | c :: _ => is_line_terminator c = true end)
    as Hnext.
  { intros (Hg & Hdot & a & t & b & -> & Ht & Hb)%IH. split; [done|]. split; [done|].
    by exists (c :: a), t, b. }
  cbn [match_conf].
  destruct (strip_prefix (js "[Confidence] ") (c :: s)) as [rest|] eqn:Hp; [|done].
  destruct (before_last_percent (take_while is_dot rest)) as [[|d g']|] eqn:Hb; [done| |done].
  intros [= <-].
  apply before_last_percent_Some in Hb as (t & Hline & Ht).
  pose proof (take_while_Forall is_dot rest) as Hdots. rewrite Hline in Hdots.
  apply Forall_app in Hdots as [Hg [_ Htd]%Forall_cons].
  assert (∀ x, is_dot x = true → is_line_terminator x = false) as Hdot.
  { intros x. unfold is_dot. by destruct (is_line_terminator x). }
  split; [done|]. split.
  - eapply Forall_impl; [exact Hg|]. exact Hdot.
  - exists [], t, (drop_while is_dot rest). split; [|split].
    + apply strip_prefix_Some in Hp. rewrite Hp.
      pose proof (take_drop_while is_dot rest) as Hr.
      rewrite Hline, <- app_assoc in Hr.
      exact (f_equal (app (js "[Confidence] ")) Hr).
    + apply Forall_forall. intros x Hx. rewrite Forall_forall in Ht, Htd.
      split; [by apply Ht|by apply Hdot, Htd].
    + pose proof (drop_while_head is_dot rest) as H.
      destruct (drop_while is_dot rest) as [|x ?]; [done|].
      unfold is_dot in H. by destruct (is_line_terminator x).
Qed.

Lemma analyze_patterns_sound_witness :
  js "Fake" ≠ [] ∧ Forall (λ c, is_line_terminator c = false) (js "Fake") ∧
  ∃ a b, stdout_150 = a ++ js "[Result] Class: " ++ js "Fake" ++ b
         ∧ match b with [] => True | c :: _ => is_line_terminator c = true end.
Proof.
  destruct (analyze_patterns_sound stdout_150 (js "Fake")) as [H _].
  apply H. reflexivity.
Defined.

Section TextContract.

Implicit Types (s t g : jsstring).

Lemma match_class_skip c s : c ≠ chr "[" → match_class (c :: s) = match_class s.
Proof.
  intros Hc. cbn [match_class].
  change (js "[Result] Class: ") with (chr "[" :: js "Result] Class: ").
  cbn [strip_prefix]. destruct (N.eqb_spec (chr "[") c); [congruence|done].
Qed.

Lemma match_conf_skip c s : c ≠ chr "[" → match_conf (c :: s) = match_conf s.
Proof.
  intros Hc. cbn [match_conf].
  change (js "[Confidence] ") with (chr "[" :: js "Confidence] ").
  cbn [strip_prefix]. destruct (N.eqb_spec (chr "[") c); [congruence|done].
Qed.

Lemma match_class_skip_all t s :
  Forall (λ c, c ≠ chr "[") t → match_class (t ++ s) = match_class s.
Proof.
  intros Ht. induction Ht as [|c t Hc _ IH]; [done|].
  cbn [app]. by rewrite match_class_skip.
Qed.

Lemma match_conf_skip_all t s :
  Forall (λ c, c ≠ chr "[") t → match_conf (t ++ s) = match_conf s.
Proof.
  intros Ht. induction Ht as [|c t Hc _ IH]; [done|].
  cbn [app]. by rewrite match_conf_skip.
Qed.

Lemma match_class_here rest c g :
  take_while is_dot rest = c :: g →
  match_class (js "[Result] Class: " ++ rest) = Some (c :: g).
Proof.
  intros H.
  change (js "[Result] Class: " ++ rest) with (chr "[" :: js "Result] Class: " ++ rest).
  cbn [match_class].
  change (chr "[" :: js "Result] Class: " ++ rest) with (js "[Result] Class: " ++ rest).
  by rewrite strip_prefix_app, H.
Qed.

Lemma match_conf_here rest c g :
  before_last_percent (take_while is_dot rest) = Some (c :: g) →
  match_conf (js "[Confidence] " ++ rest) = Some (c :: g).
Proof.
  intros H.
  change (js "[Confidence] " ++ rest) with (chr "[" :: js "Confidence] " ++ rest).
  cbn [match_conf].
  change (chr "[" :: js "Confidence] " ++ rest) with (js "[Confidence] " ++ rest).
  by rewrite strip_prefix_app, H.
Qed.

(** The class literal is no start of the confidence pattern. *)
Lemma match_conf_class_literal s :
  match_conf (js "[Result] Class: " ++ s) = match_conf s.
Proof.
  change (js "[Result] Class: " ++ s) with (chr "[" :: js "Result] Class: " ++ s).
  cbn [match_conf].
  change (js "[Confidence] ") with (chr "[" :: chr "C" :: js "onfidence] ").
  change (js "Result] Class: " ++ s) with (chr "R" :: js "esult] Class: " ++ s).
  cbn [strip_prefix]. rewrite N.eqb_refl.
  replace (chr "C" =? chr "R")%N with false by done.
  change (chr "R" :: js "esult] Class: " ++ s) with (js "Result] Class: " ++ s).
  apply match_conf_skip_all. by repeat constructor.
Qed.

Lemma script_output_groups preamble rest c l d f :
  Forall (λ c, c ≠ chr "[") preamble →
  Forall (λ c, is_line_terminator c = false ∧ c ≠ chr "[") (c :: l) →
  Forall (λ c, is_line_terminator c = false ∧ c ≠ chr "%") (d :: f) →
  match_class (script_output preamble (c :: l) (d :: f) rest) = Some (c :: l)
  ∧ match_conf (script_output preamble (c :: l) (d :: f) rest) = Some (d :: f).
Proof.
  intros Hpre Hlabel Hconf. unfold script_output.
  assert (∀ x, is_line_terminator x = false → is_dot x = true) as Hdot.
  { intros x Hx. unfold is_dot. by rewrite Hx. }
  assert (Forall (λ x, is_dot x = true) (c :: l)) as Hldot.
  { eapply Forall_impl; [exact Hlabel|]. intros x [Hx _]. by apply Hdot. }
  assert (Forall (λ x, is_dot x = true) ((d :: f) ++ [chr "%"])) as Hcdot.
  { apply Forall_app. split; [|by repeat constructor].
    eapply Forall_impl; [exact Hconf|]. intros x [Hx _]. by apply Hdot. }
  split.
  - rewrite match_class_skip_all by done. apply match_class_here.
    exact (take_while_app is_dot (c :: l) 10%N _ Hldot eq_refl).
  - rewrite match_conf_skip_all by done. rewrite match_conf_class_literal.
    rewrite match_conf_skip_all
      by (eapply Forall_impl; [exact Hlabel|]; by intros x [_ Hx]).
    change ([10%N] ++ js "[Confidence] " ++ (d :: f) ++ js "%" ++ [10%N] ++ rest)
      with (10%N :: js "[Confidence] " ++ (d :: f) ++ [chr "%"] ++ 10%N :: rest).
    rewrite match_conf_skip by done. apply match_conf_here.
    rewrite (app_assoc (d :: f)).
    rewrite (take_while_app is_dot _ 10%N rest Hcdot eq_refl).
    apply before_last_percent_snoc.
    eapply Forall_impl; [exact Hconf|]. by intros x [_ Hx].
Qed.

End TextContract.

(** X7.  The text contract with the analysis script, read back: when the
    script prints some text without [[], then [[Result] Class: <label>] and
    [[Confidence] <number>%] on lines of their own (a non-empty one-line label
    without [[], a non-empty one-line number text without [%]) and exits with
    code 0, the response is the success verdict with that label trimmed, the
    number [parseFloat] reads in that text as JSON carries it ([null] when it
    is [NaN] or an infinity), and [isFake] telling whether the label contains
    [Fake]; whatever follows the confidence line is ignored. *)
Theorem analyze_reads_script_output (now : N) (image : file_part)
    (preamble label confidence rest : jsstring) (stderr : list jsstring) :
  label ≠ [] → confidence ≠ [] →
  Forall (λ c, c ≠ chr "[") preamble →
  Forall (λ c, is_line_terminator c = false ∧ c ≠ chr "[") label →
  Forall (λ c, is_line_terminator c = false ∧ c ≠ chr "%") confidence →
  response_of (post_analyze now [{| fieldname := js "image"; file := image |}]
                 (Closes [script_output preamble label confidence rest] stderr (Some 0%Z)))
  = Some {| status := 200;
            body := verdict_sent (trim label) (sent_number (parseFloat confidence))
                                 (includes (js "Fake") label) |}.
Proof.
  intros Hl Hc Hpre Hlabel Hconf.
  destruct label as [|c l]; [done|]. destruct confidence as [|d f]; [done|].
  destruct (script_output_groups preamble rest c l d f Hpre Hlabel Hconf) as [Hmc Hmf].
  unfold post_analyze, upload_single_image. rewrite bool_decide_true by done.
  cbn [upload_single app response_of analyze concat]. unfold on_close.
  rewrite bool_decide_true by done. cbn [negb].
  rewrite app_nil_r, Hmc, Hmf. reflexivity.
Qed.

Lemma analyze_reads_script_output_witness :
  response_of (post_analyze 1700000000000 [image_part "face.png"]
                 (Closes [script_output (js "loading model" ++ [10%N]) (js "Real ")
                                        (js "high") (js "done")]
                         [] (Some 0%Z)))
  = Some {| status := 200;
            body := verdict_sent (trim (js "Real ")) (sent_number (parseFloat (js "high")))
                                 (includes (js "Fake") (js "Real ")) |}.
Proof.
  apply (analyze_reads_script_output 1700000000000 {| originalname := js "face.png" |}
           (js "loading model" ++ [10%N]) (js "Real ") (js "high") (js "done") []).
  - discriminate.
  - discriminate.
  - repeat constructor; discriminate.
  - repeat constructor; discriminate.
  - repeat constructor; discriminate.
Defined.


Section TrimFacts.

Implicit Types (s t : jsstring).

Lemma trimEnd_rev s : rev (trimEnd s) = drop_while is_whitespace (rev s).
Proof. unfold trimEnd. apply rev_involutive. Qed.

(** [trimEnd] cuts a suffix off, [trimStart] a prefix. *)
Lemma trimEnd_prefix s : ∃ w, s = trimEnd s ++ w.
Proof.
  exists (rev (take_while is_whitespace (rev s))). unfold trimEnd.
  rewrite <- rev_app_distr, <- take_drop_while. by rewrite rev_involutive.
Qed.

Lemma trimStart_suffix s : ∃ w, s = w ++ trimStart s.
Proof. exists (take_while is_whitespace s). apply take_drop_while. Qed.

Lemma trim_infix s : ∃ a b, s = a ++ trim s ++ b.
Proof.
  destruct (trimStart_suffix s) as [a Ha]. destruct (trimEnd_prefix (trimStart s)) as [b Hb].
  exists a, b. unfold trim. by rewrite <- Hb.
Qed.

Lemma trimEnd_fixed s : trimEnd (trimEnd s) = trimEnd s.
Proof.
  unfold trimEnd at 1. rewrite trimEnd_rev.
  rewrite drop_while_id by apply drop_while_head. done.
Qed.

Lemma trimStart_trim s : trimStart (trim s) = trim s.
Proof.
  unfold trim. destruct (trimEnd_prefix (trimStart s)) as [w Hw].
  destruct (trimEnd (trimStart s)) as [|c t] eqn:E; [done|].
  apply drop_while_id.
  pose proof (drop_while_head is_whitespace s) as H. fold (trimStart s) in H.
  by rewrite Hw in H.
Qed.

Lemma trim_idempotent s : trim (trim s) = trim s.
Proof.
  unfold trim at 1. rewrite trimStart_trim. unfold trim. apply trimEnd_fixed.
Qed.

Lemma trim_Forall (P : N → Prop) s : Forall P s → Forall P (trim s).
Proof.
  destruct (trim_infix s) as (a & b & Hs). intros H. rewrite Hs in H.
  by apply Forall_app in H as [_ [? _]%Forall_app].
Qed.

Lemma split_no_separator sep s :
  Forall (Forall (λ c, c ≠ sep)) (Server.split sep s).
Proof.
  induction s as [|c s IH]; simpl; [by repeat constructor|].
  destruct (N.eqb_spec c sep) as [->|Hc]; [by constructor|].
  destruct (Server.split sep s) as [|line lines]; [by repeat constructor|].
  apply Forall_cons in IH as [? ?]. by repeat constructor.
Qed.

End TrimFacts.

(** X9.  The list that [/api/v1/websites] serves: every entry is a line of
    the file with the white space around it removed, is not empty, has no
    white space left at either end and holds no line feed; blank lines are
    dropped. *)
Theorem websites_served (data : jsstring) :
  get_websites (ret data)
  = [res_json (VObject [(js "success", VBool true);
                        (js "websites", VArray (VString <$> website_list data))])]
  ∧ Forall (λ w, w ≠ [] ∧ trim w = w ∧ Forall (λ c, c ≠ 10%N) w
                 ∧ ∃ line, line ∈ Server.split 10 data ∧ w = trim line)
           (website_list data).
Proof.
  split; [done|]. unfold website_list. apply Forall_forall. intros w Hw.
  apply list_elem_of_filter in Hw as [Hlen Hw].
  apply list_elem_of_fmap in Hw as (line & -> & Hline).
  split; [by destruct (trim line); [simpl in Hlen; lia|]|].
  split; [apply trim_idempotent|]. split; [|by exists line].
  apply trim_Forall. pose proof (split_no_separator 10 data) as H.
  rewrite Forall_forall in H. by apply H.
Qed.

Section SpreadFacts.

Implicit Types (k : jsstring) (v : value) (props : list (jsstring * value)).

(** Reading a property after an assignment. *)
Lemma own_property_set_property k v props k' :
  own_property (set_property k v props) k'
  = if decide (k = k') then v else own_property props k'.
Proof.
  induction props as [|[k1 v1] props IH]; simpl.
  - by destruct (decide (k = k')).
  - destruct (decide (k1 = k)) as [->|Hk1]; simpl.
    + by destruct (decide (k = k')).
    + destruct (decide (k1 = k')) as [->|]; [|done].
      by rewrite decide_False by done.
Qed.

Lemma own_property_absent k props : k ∉ props.*1 → own_property props k = VUndefined.
Proof.
  induction props as [|[k1 v1] props IH]; [done|]. simpl.
  intros [? ?]%not_elem_of_cons. rewrite decide_False by done. by apply IH.
Qed.

(** Copying the properties of an object with distinct keys over [base]. *)
Lemma own_property_spread base props k :
  NoDup props.*1 →
  own_property (foldl (λ acc kv, set_property kv.1 kv.2 acc) base props) k
  = if bool_decide (k ∈ props.*1) then own_property props k else own_property base k.
Proof.
  revert base. induction props as [|[k1 v1] props IH]; intros base; [done|].
  intros [Hk1 Hnd]%NoDup_cons. simpl. rewrite IH by done.
  rewrite own_property_set_property.
  destruct (decide (k1 = k)) as [->|Hne].
  - rewrite (bool_decide_false (k ∈ props.*1)) by done.
    by rewrite bool_decide_true by left.
  - destruct (bool_decide (k ∈ props.*1)) eqn:E.
    + apply bool_decide_eq_true in E. by rewrite bool_decide_true by by right.
    + apply bool_decide_eq_false in E.
      rewrite bool_decide_false; [done|]. by intros [?|?]%elem_of_cons.
Qed.

End SpreadFacts.

Section JsonFacts.

Implicit Types (k : jsstring) (v : value) (props : list (jsstring * value)).

Lemma as_json_object props : as_json (VObject props) = VObject (sent_properties props).
Proof. reflexivity. Qed.

Lemma as_json_array (l : list value) : as_json (VArray l) = VArray (sent_element <$> l).
Proof. reflexivity. Qed.

Lemma sent_properties_keys props k : k ∈ (sent_properties props).*1 → k ∈ props.*1.
Proof.
  induction props as [|[k1 x] props IH]; [done|]. cbn [sent_properties].
  destruct x; rewrite ?fmap_cons; cbn [fst];
    rewrite ?elem_of_cons; intros H; try (destruct H as [->|H]; [by left|]);
    right; by apply IH.
Qed.

(** Reading a property of an object that was sent. *)
Lemma own_property_sent props k :
  NoDup props.*1 →
  own_property (sent_properties props) k = as_json (own_property props k).
Proof.
  induction props as [|[k1 x] props IH]; [done|].
  intros [Hk1 Hnd]%NoDup_cons. cbn [own_property].
  assert (own_property (sent_properties props) k1 = VUndefined) as Habsent.
  { apply own_property_absent. intros H. by apply Hk1, sent_properties_keys. }
  destruct (decide (k1 = k)) as [->|Hne].
  - destruct x; cbn [sent_properties own_property]; rewrite ?decide_True by done; done.
  - destruct x; cbn [sent_properties own_property]; rewrite ?decide_False by done;
      by apply IH.
Qed.

(** An array of strings is sent as it is. *)
Lemma as_json_strings (l : list jsstring) :
  as_json (VArray (VString <$> l)) = VArray (VString <$> l).
Proof.
  rewrite as_json_array. f_equal. induction l as [|x l IH]; [done|].
  rewrite !fmap_cons. by rewrite IH.
Qed.

(** A falsy value is falsy after it was sent. *)
Lemma as_json_falsy v : truthy v = false → truthy (as_json v) = false.
Proof.
  destruct v; try done. cbn [as_json truthy]. unfold sent_number.
  destruct (is_nan x) eqn:Hn; [done|]. destruct (is_infinity x); [done|].
  destruct (is_zero x) eqn:Hz; [done|]. cbn [orb truthy]. by rewrite Hz, Hn.
Qed.

Lemma set_property_keys k v props :
  (set_property k v props).*1
  = if bool_decide (k ∈ props.*1) then props.*1 else props.*1 ++ [k].
Proof.
  induction props as [|[k1 v1] props IH]; [done|]. cbn [set_property].
  destruct (decide (k1 = k)) as [->|Hne].
  - by rewrite bool_decide_true by left.
  - rewrite fmap_cons, IH. cbn [fst].
    destruct (bool_decide (k ∈ props.*1)) eqn:E.
    + apply bool_decide_eq_true in E. by rewrite bool_decide_true by by right.
    + apply bool_decide_eq_false in E.
      rewrite bool_decide_false; [done|]. by intros [?|?]%elem_of_cons.
Qed.

Lemma set_property_NoDup k v props : NoDup props.*1 → NoDup (set_property k v props).*1.
Proof.
  intros Hnd. rewrite set_property_keys.
  destruct (bool_decide (k ∈ props.*1)) eqn:E; [done|].
  apply bool_decide_eq_false in E. apply NoDup_app. split; [done|].
  split; [|apply NoDup_singleton]. by intros x Hx ->%list_elem_of_singleton.
Qed.

Lemma spread_NoDup base (kvs : list (jsstring * value)) :
  NoDup base.*1 →
  NoDup (foldl (λ acc kv, set_property kv.1 kv.2 acc) base kvs).*1.
Proof.
  revert base. induction kvs as [|[k v] kvs IH]; intros base Hnd; [done|].
  cbn [foldl]. by apply IH, set_property_NoDup.
Qed.

End JsonFacts.

Section ServedDocument.

(** The endpoint's answer for a file that parses. *)
Lemma get_scan_results_parsed (parse : jsstring → result value) (text : jsstring)
    (jsonData : value) :
  parse text = ret jsonData →
  get_scan_results parse true (ret text)
  = [respond {| status := 200; body := as_json (success_with jsonData) |}].
Proof. intros Hp. unfold get_scan_results, ret in *. cbn [negb]. by rewrite Hp. Qed.

(** The properties of [{ success: true, ...jsonData }], as it is sent. *)
Lemma served_property (jsonData : value) (name : string) :
  get_opt (as_json (success_with jsonData)) name
  = as_json (get_opt (success_with jsonData) name).
Proof.
  unfold success_with. rewrite as_json_object. cbn [get_opt].
  apply own_property_sent, spread_NoDup. apply NoDup_singleton.
Qed.

Lemma success_with_lookup (props : list (jsstring * value)) (k : jsstring) :
  NoDup props.*1 →
  match success_with (VObject props) with
  | VObject served =>
      own_property served k
      = if bool_decide (k ∈ props.*1) then own_property props k
        else own_property [(js "success", VBool true)] k
  | _ => False
  end.
Proof. intros Hnd. unfold success_with. cbn [spread_properties]. by apply own_property_spread. Qed.

End ServedDocument.

(** X10.  What the results endpoint serves for a file that parses to an
    object (with distinct keys): status 200 and an object that has every
    property of the document as JSON carries it (a number that is not finite
    as [null], [-0] as [0]) and no other, except [success: true], which it
    has unless the document has a [success] property of its own, which then
    wins. *)
Theorem scan_results_served (parse : jsstring → result value) (text : jsstring)
    (props : list (jsstring * value)) :
  parse text = ret (VObject props) →
  NoDup props.*1 →
  ∃ served,
    get_scan_results parse true (ret text)
    = [respond {| status := 200; body := VObject served |}]
    ∧ (∀ k, k ∈ props.*1 → own_property served k = as_json (own_property props k))
    ∧ (∀ k, k ∉ props.*1 → k ≠ js "success" → own_property served k = VUndefined)
    ∧ (js "success" ∉ props.*1 → own_property served (js "success") = VBool true).
Proof.
  intros Hp Hnd.
  exists (sent_properties (foldl (λ acc kv, set_property kv.1 kv.2 acc)
                                 [(js "success", VBool true)] props)).
  split.
  { rewrite (get_scan_results_parsed parse text _ Hp).
    unfold success_with. by rewrite as_json_object. }
  assert (∀ k, own_property
                 (sent_properties (foldl (λ acc kv, set_property kv.1 kv.2 acc)
                                         [(js "success", VBool true)] props)) k
               = as_json (if bool_decide (k ∈ props.*1) then own_property props k
                          else own_property [(js "success", VBool true)] k)) as Hlook.
  { intros k. rewrite own_property_sent by (apply spread_NoDup, NoDup_singleton).
    by rewrite own_property_spread. }
  split; [|split].
  - intros k Hk. by rewrite Hlook, bool_decide_true.
  - intros k Hk Hs. rewrite Hlook, bool_decide_false by done.
    cbn [own_property]. by rewrite decide_False.
  - intros Hs. by rewrite Hlook, bool_decide_false.
Qed.

Lemma scan_results_served_witness :
  ∃ served,
    get_scan_results JSON_parse true (ret scan_results_json)
    = [respond {| status := 200; body := VObject served |}]
    ∧ own_property served (js "success") = VBool true.
Proof.
  destruct (scan_results_served JSON_parse scan_results_json
              [(js "all_results", VArray [scan_record "https://www.a.com/" "Fake" 91.5]);
               (js "summary", VObject [(js "total_scanned", VNumber 1);
                                       (js "deepfakes_found", VNumber 1)])])
    as (served & Hs & _ & _ & Hsucc).
  - reflexivity.
  - by apply (bool_decide_unpack _).
  - exists served. split; [done|]. apply Hsucc. by apply (bool_decide_unpack _).
Defined.

(** X11.  From the results file to the overlay.  When the file parses to an
    object with no [success] property of its own whose [all_results] is an
    array, the endpoint answers 200, and a poll of that answer stores the
    merge of the file's [all_results] as JSON carries its elements, when that
    merge ends without an exception, and the counts of the file's summary as
    JSON carries it. *)
Theorem file_reaches_overlay (parse : jsstring → result value) (text : jsstring)
    (props : list (jsstring * value)) (rs : list value)
    (m : gmap jsstring value) (st : overlay) :
  parse text = ret (VObject props) →
  NoDup props.*1 →
  js "success" ∉ props.*1 →
  own_property props (js "all_results") = VArray rs →
  merge_results (sent_element <$> rs) = ret m →
  ∃ served,
    response_of (get_scan_results parse true (ret text))
    = Some {| status := 200; body := served |}
    ∧ scanResults (poll (ret served) st) = m
    ∧ stats (poll (ret served) st)
      = {| total := or_else (get_opt (as_json (own_property props (js "summary")))
                                     "total_scanned") (VNumber 0);
           found := or_else (get_opt (as_json (own_property props (js "summary")))
                                     "deepfakes_found") (VNumber 0) |}.
Proof.
  intros Hp Hnd Hs Ha Hm.
  exists (as_json (success_with (VObject props))).
  split; [by rewrite (get_scan_results_parsed parse text _ Hp)|].
  assert (js "all_results" ∈ props.*1) as Hall.
  { destruct (decide (js "all_results" ∈ props.*1)) as [|Hn]; [done|].
    by rewrite (own_property_absent _ _ Hn) in Ha. }
  pose proof (success_with_lookup props (js "success") Hnd) as Hsucc.
  pose proof (success_with_lookup props (js "all_results") Hnd) as Hres.
  pose proof (success_with_lookup props (js "summary") Hnd) as Hsum.
  pose proof (served_property (VObject props) "success") as Hs1.
  pose proof (served_property (VObject props) "all_results") as Hs2.
  pose proof (served_property (VObject props) "summary") as Hs3.
  destruct (success_with (VObject props)) as [| | | | | |served] eqn:E; try done.
  rewrite as_json_object in *. cbn [get_opt] in Hs1, Hs2, Hs3.
  rewrite bool_decide_false in Hsucc by done.
  rewrite bool_decide_true in Hres by done.
  rewrite Hsucc in Hs1. rewrite Hres, Ha, as_json_array in Hs2.
  assert (own_property served (js "summary") = own_property props (js "summary")) as Hsum'.
  { rewrite Hsum. destruct (bool_decide (js "summary" ∈ props.*1)) eqn:Ei; [done|].
    apply bool_decide_eq_false in Ei. by rewrite (own_property_absent _ _ Ei). }
  rewrite Hsum' in Hs3.
  rewrite (poll_takes_effect _ st (sent_element <$> rs) m).
  - cbn [scanResults stats].
    change (get_opt (VObject (sent_properties served)) "summary")
      with (own_property (sent_properties served) (js "summary")).
    by rewrite Hs3.
  - unfold truthy_property. cbn [get]. unfold ret. by rewrite Hs1.
  - cbn [get]. by rewrite Hs2.
  - done.
Qed.

Lemma file_reaches_overlay_witness :
  ∃ served,
    response_of (get_scan_results JSON_parse true (ret scan_results_json))
    = Some {| status := 200; body := served |}
    ∧ scanResults (poll (ret served) (initial [js "a.com"]))
      = {[ js "a.com" := scan_record "https://www.a.com/" "Fake" 91.5 ]}.
Proof.
  destruct (file_reaches_overlay JSON_parse scan_results_json
              [(js "all_results", VArray [scan_record "https://www.a.com/" "Fake" 91.5]);
               (js "summary", VObject [(js "total_scanned", VNumber 1);
                                       (js "deepfakes_found", VNumber 1)])]
              [scan_record "https://www.a.com/" "Fake" 91.5]
              {[ js "a.com" := scan_record "https://www.a.com/" "Fake" 91.5 ]}
              (initial [js "a.com"]))
    as (served & Hr & Hm & _).
  - reflexivity.
  - by apply (bool_decide_unpack _).
  - by apply (bool_decide_unpack _).
  - reflexivity.
  - reflexivity.
  - by exists served.
Defined.

(** X12.  The results file can switch the overlay off: when it parses to an
    object whose own [success] property is falsy, the endpoint still answers
    200, and the overlay ignores that answer whatever results it carries. *)
Theorem file_success_overrides (parse : jsstring → result value) (text : jsstring)
    (props : list (jsstring * value)) (st : overlay) :
  parse text = ret (VObject props) →
  NoDup props.*1 →
  js "success" ∈ props.*1 →
  truthy (own_property props (js "success")) = false →
  ∃ served,
    response_of (get_scan_results parse true (ret text))
    = Some {| status := 200; body := served |}
    ∧ poll (ret served) st = st.
Proof.
  intros Hp Hnd Hs Hf.
  exists (as_json (success_with (VObject props))).
  split; [by rewrite (get_scan_results_parsed parse text _ Hp)|].
  pose proof (success_with_lookup props (js "success") Hnd) as Hsucc.
  pose proof (served_property (VObject props) "success") as Hs1.
  destruct (success_with (VObject props)) as [| | | | | |served] eqn:E; try done.
  rewrite as_json_object in *. cbn [get_opt] in Hs1.
  rewrite bool_decide_true in Hsucc by done. rewrite Hsucc in Hs1.
  apply poll_guard. unfold truthy_property at 1. cbn [get]. unfold ret.
  by rewrite Hs1, (as_json_falsy _ Hf).
Qed.

Lemma file_success_overrides_witness :
  ∃ served,
    response_of (get_scan_results JSON_parse true
                   (ret (js "{" ++ quoted "success" ++ js ": false, "
                         ++ quoted "all_results" ++ js ": []}")))
    = Some {| status := 200; body := served |}
    ∧ poll (ret served) (initial [js "a.com"]) = initial [js "a.com"].
Proof.
  apply (file_success_overrides JSON_parse _
           [(js "success", VBool false); (js "all_results", VArray [])]).
  - reflexivity.
  - by apply (bool_decide_unpack _).
  - by apply (bool_decide_unpack _).
  - reflexivity.
Defined.

Section UploadNames.

Lemma js_inj (s1 s2 : string) : js s1 = js s2 → s1 = s2.
Proof.
  unfold js. intros H.
  assert (list_ascii_of_string s1 = list_ascii_of_string s2) as Hl.
  { revert H. generalize (list_ascii_of_string s1) (list_ascii_of_string s2).
    intros l1. induction l1 as [|a l1 IH]; intros [|b l2]; try done.
    intros [= Hab Hl]. f_equal; [|by apply IH].
    by rewrite <- (ascii_N_embedding a), <- (ascii_N_embedding b), Hab. }
  by rewrite <- (string_of_list_ascii_of_string s1),
             <- (string_of_list_ascii_of_string s2), Hl.
Qed.

(** The decimal text of a number holds digits only. *)
Lemma pretty_N_char_digit (x : N) : is_digit (chr (pretty_N_char x)) = true.
Proof. unfold pretty_N_char. by repeat case_match. Qed.

Lemma pretty_N_go_digits (x : N) (s : string) :
  Forall (λ c, is_digit c = true) (js s) →
  Forall (λ c, is_digit c = true) (js (pretty_N_go x s)).
Proof.
  revert s. induction (N.lt_wf_0 x) as [x _ IH]; intros s Hs.
  assert (x = 0 ∨ 0 < x)%N as [->|?] by lia; [by rewrite pretty_N_go_0|].
  rewrite pretty_N_go_step by done. apply IH.
  - by apply N.div_lt.
  - constructor; [apply pretty_N_char_digit|done].
Qed.

Lemma pretty_N_digits (x : N) : Forall (λ c, is_digit c = true) (js (pretty x)).
Proof.
  unfold pretty, pretty_N. destruct (decide (x = 0%N)).
  - by repeat constructor.
  - apply pretty_N_go_digits. constructor.
Qed.

Lemma pretty_N_no_dash (x : N) : Forall (λ c, c ≠ chr "-") (js (pretty x)).
Proof.
  eapply Forall_impl; [apply pretty_N_digits|]. by intros c Hc ->.
Qed.

(** Two texts cut at their first dash. *)
Lemma app_dash_inj (d1 d2 r1 r2 : jsstring) :
  Forall (λ c, c ≠ chr "-") d1 → Forall (λ c, c ≠ chr "-") d2 →
  d1 ++ chr "-" :: r1 = d2 ++ chr "-" :: r2 → d1 = d2 ∧ r1 = r2.
Proof.
  intros H1. revert d2. induction H1 as [|c d1 Hc _ IH]; intros d2 H2 Heq.
  - destruct H2 as [|c d2 Hc _]; simpl in Heq; [by injection Heq|].
    injection Heq as Hcc _. by destruct Hc.
  - destruct H2 as [|c' d2 Hc' H2]; simpl in Heq.
    + injection Heq as Hcc _. by destruct Hc.
    + injection Heq as -> Heq. by destruct (IH d2 H2 Heq) as [-> ->].
Qed.

End UploadNames.

(** X13.  Stored uploads collide only when both the millisecond and the
    original name are the same: the path [uploads/<Date.now()>-<originalname>]
    determines the time stamp and the original name. *)
Theorem upload_paths_distinct (now1 now2 : N) (f1 f2 : file_part) :
  upload_single now1 (Some f1) = upload_single now2 (Some f2) ↔
  now1 = now2 ∧ originalname f1 = originalname f2.
Proof.
  split.
  - unfold upload_single. intros [= H].
    apply (app_dash_inj (js (pretty now1)) (js (pretty now2))) in H as [Hn Hname];
      [|apply pretty_N_no_dash..].
    split; [|done]. by apply js_inj, (inj pretty) in Hn.
  - destruct f1, f2. simpl. by intros [-> ->].
Qed.

Section KeyShape.

Implicit Types (s : jsstring).

Lemma strip_trailing_slash_cut s :
  ∃ b, s = strip_trailing_slash s ++ b ∧ (b = [] ∨ b = js "/").
Proof.
  destruct s as [|c s _] using rev_ind; [exists []; by split; [|left]|].
  rewrite strip_trailing_slash_snoc.
  destruct (N.eqb_spec c (chr "/")) as [->|].
  - exists (js "/"). by split; [|right].
  - exists []. split; [by rewrite app_nil_r|by left].
Qed.

Lemma strip_www_cut s :
  ∃ w, s = w ++ strip_www s ∧ (w = [] ∨ w = js "www.").
Proof.
  unfold strip_www. destruct (strip_prefix (js "www.") s) as [r|] eqn:E.
  - exists (js "www."). split; [by apply strip_prefix_Some|by right].
  - exists []. by split; [|left].
Qed.

End KeyShape.

(** X14.  The shape of a normalized key.  The key of a string is the string
    with at most one final slash removed and, in front, at most one scheme
    ([http://] or [https://]) with at most one [www.] after it removed;
    nothing else is changed, and [normalizeUrl] does not throw on a string. *)
Theorem site_key_shape (s : jsstring) :
  normalizeUrl (VString s) = ret (site_key s)
  ∧ ∃ a b, s = a ++ site_key s ++ b
           ∧ a ∈ [[]; js "http://"; js "https://"; js "http://www."; js "https://www."]
           ∧ b ∈ [[]; js "/"].
Proof.
  split; [apply normalizeUrl_string|].
  destruct (strip_trailing_slash_cut s) as (b & Hs & Hb).
  unfold site_key. set (u := strip_trailing_slash s) in *.
  assert (∃ a, u = a ++ strip_scheme u
               ∧ a ∈ [[]; js "http://"; js "https://"; js "http://www."; js "https://www."])
    as (a & Hu & Ha).
  { unfold strip_scheme.
    destruct (strip_prefix (js "https://") u) as [r|] eqn:E1.
    - apply strip_prefix_Some in E1. destruct (strip_www_cut r) as (w & Hr & [->| ->]).
      + exists (js "https://"). split; [by rewrite E1 at 1; rewrite Hr at 1|by apply (bool_decide_unpack _)].
      + exists (js "https://www."). split; [|by apply (bool_decide_unpack _)].
        rewrite E1 at 1. rewrite Hr at 1.
        change (js "https://www.") with (js "https://" ++ js "www.").
        by rewrite <- app_assoc.
    - destruct (strip_prefix (js "http://") u) as [r|] eqn:E2.
      + apply strip_prefix_Some in E2. destruct (strip_www_cut r) as (w & Hr & [->| ->]).
        * exists (js "http://"). split; [by rewrite E2 at 1; rewrite Hr at 1|by apply (bool_decide_unpack _)].
        * exists (js "http://www."). split; [|by apply (bool_decide_unpack _)].
          rewrite E2 at 1. rewrite Hr at 1.
          change (js "http://www.") with (js "http://" ++ js "www.").
          by rewrite <- app_assoc.
      + exists []. split; [done|by apply (bool_decide_unpack _)]. }
  exists a, b. split; [|split; [done|destruct Hb as [->| ->]; by apply (bool_decide_unpack _)]].
  rewrite Hs at 1. rewrite Hu at 1. by rewrite <- app_assoc.
Qed.

(** X15.  The status of a site does not depend on the order of the records:
    two results sets of well-formed records that are permutations of each
    other render a site the same, when neither the key of the site nor the key
    of any record is the name of a member of [Object.prototype]. *)
Theorem status_order_independent (data1 data2 : value) (st1 st2 : overlay)
    (rs1 rs2 : list value) (site : jsstring) :
  truthy_property data1 "success" = true →
  truthy_property data2 "success" = true →
  get data1 "all_results" = ret (VArray rs1) →
  get data2 "all_results" = ret (VArray rs2) →
  Forall (λ r, well_formed r = true) rs1 →
  Forall (λ r, plainly_filed r = true) rs1 →
  plain_key (site_key site) = true →
  rs1 ≡ₚ rs2 →
  status_of (poll (ret data1) st1) site = status_of (poll (ret data2) st2) site.
Proof.
  intros Hs1 Hs2 Ha1 Ha2 Hwf1 _ _ Hp.
  assert (Forall (λ r, well_formed r = true) rs2) as Hwf2 by by rewrite <- Hp.
  assert (∀ f : value → bool, existsb f rs1 = existsb f rs2) as Hex.
  { intros f. apply eq_true_iff_eq. rewrite !existsb_exists.
    split; intros (x & Hx & ?); exists x; (split; [|done]);
      apply list_elem_of_In; apply list_elem_of_In in Hx;
      first [by rewrite <- Hp|by rewrite Hp]. }
  rewrite !status_of_entry.
  rewrite (poll_stores_merged_entries data1 st1 rs1 _ Hs1 Ha1 Hwf1).
  rewrite (poll_stores_merged_entries data2 st2 rs2 _ Hs2 Ha2 Hwf2).
  rewrite !merged_entry_cases by done. by rewrite !Hex.
Qed.

Lemma status_order_independent_witness :
  status_of (poll (ret (results_document
                          [scan_record "a.com" "Real" 97; scan_record "a.com" "Fake" 88] 1 1))
                  (initial [js "a.com"])) (js "a.com")
  = status_of (poll (ret (results_document
                            [scan_record "a.com" "Fake" 88; scan_record "a.com" "Real" 97] 1 1))
                    (initial [js "a.com"])) (js "a.com").
Proof.
  apply (status_order_independent _ _ _ _
           [scan_record "a.com" "Real" 97; scan_record "a.com" "Fake" 88]
           [scan_record "a.com" "Fake" 88; scan_record "a.com" "Real" 97]).
  - reflexivity.
  - reflexivity.
  - reflexivity.
  - reflexivity.
  - repeat constructor.
  - repeat constructor.
  - reflexivity.
  - apply perm_swap.
Defined.

Section MergeSuccess.

Lemma key_of_cases (r : value) :
  (∃ k, key_of r = ret k) ↔
  r ≠ VNull ∧ r ≠ VUndefined
  ∧ (truthy (get_opt r "source_url") = false ∨ ∃ s, get_opt r "source_url" = VString s).
Proof.
  unfold key_of, normalizeUrl. split.
  - intros [k Hk]. destruct r; try done; simpl in *;
      try by (repeat split; try done; left).
    repeat split; try done.
    destruct (own_property props (js "source_url")) eqn:E; simpl in *; eauto.
    + destruct b; [done|by left].
    + destruct (is_zero x || is_nan x); simpl in *; [by left|done].
    + done.
    + done.
  - intros (Hn & Hu & Hsu). destruct r; try done; simpl in *; eauto.
    destruct Hsu as [Hf|[s Hs]].
    + rewrite Hf. simpl. eauto.
    + rewrite Hs. destruct s; simpl; eauto.
Qed.

Lemma forEach_merge_succeeds (rs : list value) (m0 : gmap jsstring value) :
  (∃ m, forEach merge_record rs m0 = ret m) ↔ Forall (λ r, ∃ k, key_of r = ret k) rs.
Proof.
  split; [|apply forEach_merge_total].
  revert m0. induction rs as [|a rs IH]; intros m0; [constructor|].
  simpl. rewrite merge_record_unfold.
  destruct (key_of a) as [e|k] eqn:Hk; simpl; [by intros [? ?]|].
  intros [m Hm]. constructor; [by exists k|].
  destruct (_ || _); simpl in Hm; eapply IH; eauto.
Qed.

End MergeSuccess.

(** X16.  The merge ends without an exception exactly when every element
    of [all_results] can be filed, that is, is neither [null] nor [undefined]
    and has a [source_url] that is falsy (absent, empty, [null], 0) or a
    string. *)
Theorem merge_results_succeeds_iff (rs : list value) :
  (∃ m, merge_results rs = ret m) ↔
  Forall (λ r, r ≠ VNull ∧ r ≠ VUndefined
               ∧ (truthy (get_opt r "source_url") = false
                  ∨ ∃ s, get_opt r "source_url" = VString s)) rs.
Proof.
  unfold merge_results. rewrite forEach_merge_succeeds.
  split; intros H; (eapply Forall_impl; [exact H|]); intros r; by rewrite key_of_cases.
Qed.

Section BlankList.

Lemma split_Forall (P : N → Prop) sep (s : jsstring) :
  Forall P s → Forall (Forall P) (Server.split sep s).
Proof.
  intros H. induction H as [|c s Hc _ IH]; simpl; [by repeat constructor|].
  destruct (c =? sep)%N; [by repeat constructor|].
  destruct (Server.split sep s) as [|line lines]; [by repeat constructor|].
  apply Forall_cons in IH as [? ?]. by repeat constructor.
Qed.

Lemma trim_blank (s : jsstring) : Forall (λ c, is_whitespace c = true) s → trim s = [].
Proof.
  intros H. unfold trim, trimStart.
  assert (drop_while is_whitespace s = []) as ->; [|done].
  induction H as [|c s Hc _ IH]; simpl; [done|]. by rewrite Hc.
Qed.

End BlankList.

(** X17.  A website file that holds nothing but white space (an empty file,
    blank lines) is served as a success with an empty list, not as an
    error. *)
Theorem websites_blank_file (data : jsstring) :
  Forall (λ c, is_whitespace c = true) data →
  response_of (get_websites (ret data))
  = Some {| status := 200;
            body := VObject [(js "success", VBool true); (js "websites", VArray [])] |}.
Proof.
  intros H.
  assert (website_list data = []) as Hl.
  { unfold website_list. pose proof (split_Forall _ 10%N data H) as Hs.
    induction Hs as [|line lines Hline _ IH]; [done|].
    rewrite fmap_cons, filter_cons, (trim_blank _ Hline).
    rewrite decide_False by (simpl; lia). apply IH. }
  change (get_websites (ret data))
    with [res_json (VObject [(js "success", VBool true);
                             (js "websites", VArray (VString <$> website_list data))])].
  by rewrite Hl.
Qed.

Lemma websites_blank_file_witness :
  response_of (get_websites (ret [10%N; 32%N; 10%N]))
  = Some {| status := 200;
            body := VObject [(js "success", VBool true); (js "websites", VArray [])] |}.
Proof. apply websites_blank_file. by repeat constructor. Defined.

Section NonObjectFile.

Lemma own_property_spread_absent base (kvs : list (jsstring * value)) k :
  k ∉ kvs.*1 →
  own_property (foldl (λ acc kv, set_property kv.1 kv.2 acc) base kvs) k
  = own_property base k.
Proof.
  revert base. induction kvs as [|[k1 v1] kvs IH]; intros base; [done|].
  simpl. intros [Hne Hk]%not_elem_of_cons. rewrite IH by done.
  rewrite own_property_set_property. by rewrite decide_False.
Qed.

(** The keys that a spread array or string contributes are index texts. *)
Lemma spread_keys_digits (v : value) k :
  (∀ props, v ≠ VObject props) →
  k ∈ (spread_properties v).*1 → Forall (λ c, is_digit c = true) k.
Proof.
  intros Hv Hk. apply list_elem_of_fmap in Hk as ([k' x] & -> & Hin). simpl.
  destruct v; simpl in Hin; try by apply elem_of_nil in Hin.
  - apply elem_of_lookup_imap in Hin as (i & c & [= -> _] & _). apply pretty_N_digits.
  - apply elem_of_lookup_imap in Hin as (i & y & [= -> _] & _). apply pretty_N_digits.
  - by destruct (Hv props).
Qed.

End NonObjectFile.

(** X18.  A results file that is valid JSON but no object (a bare array of
    records, a string, a number, [null]) is answered with status 200 and
    [success: true], and the overlay ignores that answer: it has no
    [all_results]. *)
Theorem non_object_file_ignored (parse : jsstring → result value) (text : jsstring)
    (v : value) (st : overlay) :
  parse text = ret v →
  (∀ props, v ≠ VObject props) →
  ∃ served,
    response_of (get_scan_results parse true (ret text))
    = Some {| status := 200; body := served |}
    ∧ truthy_property served "success" = true
    ∧ poll (ret served) st = st.
Proof.
  intros Hp Hv. exists (as_json (success_with v)).
  split; [by rewrite (get_scan_results_parsed parse text _ Hp)|].
  assert (∀ name : string, ¬ Forall (λ c, is_digit c = true) (js name) →
          get_opt (as_json (success_with v)) name
          = as_json (own_property [(js "success", VBool true)] (js name))) as Hget.
  { intros name Hname. rewrite served_property. f_equal.
    unfold success_with. cbn [get_opt].
    apply own_property_spread_absent. intros Hin. by apply Hname, (spread_keys_digits v). }
  assert (truthy_property (as_json (success_with v)) "success" = true) as Hs.
  { unfold truthy_property. change (get (as_json (success_with v)) "success")
      with (ret (get_opt (as_json (success_with v)) "success")).
    rewrite Hget; [done|]. by intros [Hd _]%Forall_cons. }
  split; [done|]. apply poll_guard. rewrite Hs.
  unfold truthy_property. change (get (as_json (success_with v)) "all_results")
    with (ret (get_opt (as_json (success_with v)) "all_results")).
  rewrite Hget; [done|]. by intros [Hd _]%Forall_cons.
Qed.

Lemma non_object_file_ignored_witness :
  ∃ served,
    response_of (get_scan_results JSON_parse true
                   (ret (js "[{" ++ quoted "source_url" ++ js ": " ++ quoted "a.com"
                         ++ js ", " ++ quoted "prediction" ++ js ": " ++ quoted "Fake"
                         ++ js "}]")))
    = Some {| status := 200; body := served |}
    ∧ truthy_property served "success" = true
    ∧ poll (ret served) (initial [js "a.com"]) = initial [js "a.com"].
Proof.
  apply (non_object_file_ignored JSON_parse _
           (VArray [VObject [(js "source_url", VString (js "a.com"));
                             (js "prediction", VString (js "Fake"))]])).
  - reflexivity.
  - discriminate.
Defined.
